(** * Feedback Chatbot API (Backend/app.py): model and verified properties

    A shallow embedding of the FastAPI application in [Backend/app.py]:
    the three tables of the schema, the request schemas, the endpoint
    handlers as state-passing functions over the database, and the two
    export formatters.  What the application takes from outside its own
    code is made explicit:
    - [uuid4] and [utcnow] are draws handed to each request ([Env]);
    - the storage engine selected by [DATABASE_URL] either enforces the
      declared [ForeignKey("sessions.id")] (Postgres) or does not (the
      default SQLite file, for which the application never turns foreign
      keys on): the [enforce_fk] flag of the database; the two engines
      also differ in the values they store in a message or feedback row
      (an INTEGER of 32 bits and text without NUL on Postgres, an integer
      of 64 bits and any text on SQLite);
    - primary keys are unique on every engine: an insert whose [id] is
      taken fails at commit. *)

From Stdlib Require Import ZArith NArith List Ascii String Sorted Permutation Lia.
From stdpp Require Import base option list gmap strings pretty sorting.

Local Open Scope string_scope.
Local Open Scope Z_scope.

(** ** Text *)

(** Python [str] values are kept as their UTF-8 bytes. *)

Definition LF : ascii := Ascii.ascii_of_nat 10.
Definition SPACE : ascii := Ascii.ascii_of_nat 32.
Definition COMMA : ascii := Ascii.ascii_of_nat 44.
Definition DQUOTE : ascii := Ascii.ascii_of_nat 34.
Definition NUL : ascii := Ascii.ascii_of_nat 0.

(** [s.replace(old, new)] for one-character [old] and [new]. *)
Fixpoint replace (old new : ascii) (s : string) : string :=
  match s with
  | EmptyString => EmptyString
  | String c s' =>
      String (if Ascii.eqb c old then new else c) (replace old new s')
  end.

(** [c in s] for a character [c]. *)
Fixpoint contains (c : ascii) (s : string) : bool :=
  match s with
  | EmptyString => false
  | String c' s' => Ascii.eqb c' c || contains c s'
  end.

(** [x or ""] on an optional string: [None] and the empty string are
    both falsy. *)
Definition or_empty (x : option string) : string :=
  match x with
  | Some (String c s) => String c s
  | Some EmptyString => EmptyString
  | None => EmptyString
  end.

(** Decimal digits, zero-padded to a width (the [%02d]-like fields of
    [isoformat] and [strftime]). *)
Definition digit (n : N) : ascii := Ascii.ascii_of_N (48 + n mod 10).

Fixpoint zpad (width : nat) (n : N) : string :=
  match width with
  | O => EmptyString
  | S w => zpad w (n / 10) +:+ String (digit n) EmptyString
  end.

(** ** datetime *)

Record datetime := mk_datetime {
  year : N; month : N; day : N;
  hour : N; minute : N; second : N; microsecond : N
}.

Definition dt_tuple (d : datetime) : list N :=
  [year d; month d; day d; hour d; minute d; second d; microsecond d].

(** Naive datetimes compare as their field tuples, lexicographically. *)
Fixpoint lex_compare (a b : list N) : comparison :=
  match a, b with
  | [], [] => Eq
  | [], _ :: _ => Lt
  | _ :: _, [] => Gt
  | x :: a', y :: b' =>
      match (x ?= y)%N with
      | Eq => lex_compare a' b'
      | c => c
      end
  end.

Definition dt_compare (a b : datetime) : comparison :=
  lex_compare (dt_tuple a) (dt_tuple b).

Definition dt_leb (a b : datetime) : bool :=
  match dt_compare a b with Gt => false | _ => true end.

Definition dt_ltb (a b : datetime) : bool :=
  match dt_compare a b with Lt => true | _ => false end.

Definition dt_le (a b : datetime) : Prop := dt_leb a b = true.
Definition dt_lt (a b : datetime) : Prop := dt_ltb a b = true.

(** [d.isoformat()]: the fraction is printed only when it is not zero. *)
Definition isoformat (d : datetime) : string :=
  zpad 4 (year d) +:+ "-" +:+ zpad 2 (month d) +:+ "-" +:+ zpad 2 (day d)
  +:+ "T" +:+ zpad 2 (hour d) +:+ ":" +:+ zpad 2 (minute d)
  +:+ ":" +:+ zpad 2 (second d)
  +:+ (if (microsecond d =? 0)%N then EmptyString
       else "." +:+ zpad 6 (microsecond d)).

(** [d.strftime("%Y%m%d_%H%M%S")]. *)
Definition strftime_Ymd_HMS (d : datetime) : string :=
  zpad 4 (year d) +:+ zpad 2 (month d) +:+ zpad 2 (day d) +:+ "_"
  +:+ zpad 2 (hour d) +:+ zpad 2 (minute d) +:+ zpad 2 (second d).

(** ** JSON values (dict literals and [JSONResponse] bodies) *)

#[local] Unset Elimination Schemes.
Inductive json :=
| JNull
| JBool (b : bool)
| JInt (z : Z)
| JStr (s : string)
| JArr (items : list json)
| JObj (fields : list (string * json)).
#[local] Set Elimination Schemes.

(** [d[k]] on a dict body; [None] when the key is absent or the value is
    not a dict. *)
Fixpoint assoc (k : string) (fields : list (string * json)) : option json :=
  match fields with
  | [] => None
  | (k', v) :: rest => if String.eqb k' k then Some v else assoc k rest
  end.

Definition field (k : string) (j : json) : option json :=
  match j with
  | JObj fields => assoc k fields
  | _ => None
  end.

Definition opt_int (x : option Z) : json :=
  match x with Some z => JInt z | None => JNull end.

Definition opt_str (x : option string) : json :=
  match x with Some s => JStr s | None => JNull end.

(** ** Schema: the three tables *)

(** A row of [sessions] without its primary key: the [id] column is the
    key under which the row is stored in the table (see [DB]). *)
Module Session.
Record t := mk {
  started_at : datetime;
  ended_at : option datetime;
  consented : bool;
  research_version : option string;
  user_agent : option string;
  notes : option string
}.

(** [sess.ended_at = v] *)
Definition set_ended_at (v : option datetime) (sess : t) : t :=
  mk (started_at sess) v (consented sess)
     (research_version sess) (user_agent sess) (notes sess).
End Session.

Module Message.
Record t := mk {
  id : string;
  session_id : string;
  role : string;
  content : string;
  ts : datetime
}.
End Message.

Module FeedbackResponse.
Record t := mk {
  id : string;
  session_id : string;
  q_key : string;
  answer_numeric : option Z;
  answer_text : option string;
  ts : datetime
}.
End FeedbackResponse.

(** The database behind [SessionLocal].  [sessions] maps each primary
    key [id] to the rest of its row; [messages] and [feedback_responses]
    are kept in insertion order.  [enforce_fk] tells whether the engine checks the foreign keys
    that the schema declares on [session_id]. *)
Record DB := mkDB {
  enforce_fk : bool;
  sessions : gmap string Session.t;
  messages : list Message.t;
  feedback_responses : list FeedbackResponse.t
}.

(** Column defaults evaluated by one request: [str(uuid4())] and
    [datetime.utcnow()]. *)
Record Env := mkEnv {
  uuid4 : string;
  utcnow : datetime
}.

(** ** Storage operations: [s.add(x); s.commit()], [s.get], [s.commit()] *)

(** The foreign key of a child row is accepted when the engine does not
    enforce it or the parent session exists. *)
Definition fk_ok (d : DB) (sid : string) : bool :=
  negb (enforce_fk d) || bool_decide (is_Some (sessions d !! sid)).

Definition message_ids (d : DB) : list string := Message.id <$> messages d.
Definition feedback_ids (d : DB) : list string :=
  FeedbackResponse.id <$> feedback_responses d.

(** Returns [None] when the commit raises [IntegrityError]; the
    transaction is then rolled back as the session is closed. *)
Definition add_session (id : string) (x : Session.t) (d : DB) : option DB :=
  match sessions d !! id with
  | Some _ => None
  | None =>
      Some (mkDB (enforce_fk d) (<[id := x]> (sessions d))
                 (messages d) (feedback_responses d))
  end.

(** The values that the engine of [d] stores in a message or feedback
    row.  The application runs on two engines, told apart by [enforce_fk]:
    - the default SQLite file ([enforce_fk d = false]): any text is bound,
      and an integer is bound when it fits in 64 bits (the driver raises
      [OverflowError] otherwise);
    - Postgres through psycopg ([enforce_fk d = true]): a text is bound
      when it holds no NUL, and an [Integer] column takes an integer of 32
      bits (a [DataError] otherwise). *)
Definition text_fits (d : DB) (s : string) : bool :=
  negb (enforce_fk d) || negb (contains NUL s).

Definition opt_text_fits (d : DB) (s : option string) : bool :=
  match s with
  | None => true
  | Some t => text_fits d t
  end.

Definition int_fits (d : DB) (n : option Z) : bool :=
  match n with
  | None => true
  | Some z =>
      if enforce_fk d then (- 2 ^ 31 <=? z) && (z <? 2 ^ 31)
      else (- 2 ^ 63 <=? z) && (z <? 2 ^ 63)
  end.

Definition message_fits (d : DB) (x : Message.t) : bool :=
  text_fits d (Message.id x) && text_fits d (Message.session_id x)
  && text_fits d (Message.role x) && text_fits d (Message.content x).

Definition feedback_fits (d : DB) (x : FeedbackResponse.t) : bool :=
  text_fits d (FeedbackResponse.id x)
  && text_fits d (FeedbackResponse.session_id x)
  && text_fits d (FeedbackResponse.q_key x)
  && int_fits d (FeedbackResponse.answer_numeric x)
  && opt_text_fits d (FeedbackResponse.answer_text x).

(** The result of [s.add(x); s.commit()] for a message or feedback row:
    the row is stored, or the commit raises because a value cannot be
    stored in its column, or because the primary key or the foreign key is
    violated; when it raises, the transaction is rolled back as the session
    is closed. *)
Inductive commit :=
| Committed (d : DB)
| Refused_value
| Refused_key.

Definition add_message (x : Message.t) (d : DB) : commit :=
  if negb (message_fits d x) then Refused_value
  else if bool_decide (Message.id x ∈ message_ids d) then Refused_key
  else if fk_ok d (Message.session_id x) then
    Committed (mkDB (enforce_fk d) (sessions d) (messages d ++ [x])
                    (feedback_responses d))
  else Refused_key.

Definition add_feedback (x : FeedbackResponse.t) (d : DB) : commit :=
  if negb (feedback_fits d x) then Refused_value
  else if bool_decide (FeedbackResponse.id x ∈ feedback_ids d) then Refused_key
  else if fk_ok d (FeedbackResponse.session_id x) then
    Committed (mkDB (enforce_fk d) (sessions d) (messages d)
                    (feedback_responses d ++ [x]))
  else Refused_key.

(** [s.get(Session, sid)] *)
Definition get_session (sid : string) (d : DB) : option Session.t :=
  sessions d !! sid.

(** Commit of a modified session row (an UPDATE by primary key). *)
Definition update_session (id : string) (x : Session.t) (d : DB) : DB :=
  mkDB (enforce_fk d) (<[id := x]> (sessions d))
       (messages d) (feedback_responses d).

(** ** Request schemas *)

Module StartSessionReq.
Record t := mk {
  consented : bool;
  research_version : option string;
  user_agent : option string
}.

(** Validation of a body in which any field may be missing: the
    defaults of the schema fill the gaps. *)
Definition parse (c : option bool) (rv ua : option string) : t :=
  mk (default false c) rv ua.
End StartSessionReq.

Module ChatMessageReq.
Record t := mk { session_id : string; role : string; content : string }.
End ChatMessageReq.

Module EndSessionReq.
Record t := mk { session_id : string }.
End EndSessionReq.

Module FeedbackStartReq.
Record t := mk { session_id : string }.
End FeedbackStartReq.

Module FeedbackAnswerReq.
Record t := mk {
  session_id : string;
  q_key : string;
  answer_numeric : option Z;
  answer_text : option string
}.
End FeedbackAnswerReq.

(** ** Outcomes of a handler *)

Inductive outcome (A : Type) :=
| Return (a : A)
| HTTPException (status_code : Z) (detail : string)
| IntegrityError
| DataError.
Arguments Return {A} a.
Arguments HTTPException {A} status_code detail.
Arguments IntegrityError {A}.
Arguments DataError {A}.

(** The status line the client sees; an exception that is not an
    [HTTPException] surfaces as the server error. *)
Definition http_status {A} (o : outcome A) : Z :=
  match o with
  | Return _ => 200
  | HTTPException c _ => c
  | IntegrityError => 500
  | DataError => 500
  end.

Definition ok_true : json := JObj [("ok", JBool true)].

(** ** Endpoints *)

Definition healthz : json := ok_true.

Module StartSessionResp.
Record t := mk { session_id : string }.
End StartSessionResp.

(** POST /session/start *)
Definition start_session (env : Env) (req : StartSessionReq.t) (d : DB)
  : outcome StartSessionResp.t * DB :=
  let id := uuid4 env in
  let sess :=
    Session.mk (utcnow env) None
               (StartSessionReq.consented req)
               (StartSessionReq.research_version req)
               (StartSessionReq.user_agent req) None in
  match add_session id sess d with
  | Some d' => (Return (StartSessionResp.mk id), d')
  | None => (IntegrityError, d)
  end.

Definition valid_roles : list string := ["user"; "assistant"; "system"].

(** POST /chat/message *)
Definition save_message (env : Env) (req : ChatMessageReq.t) (d : DB)
  : outcome json * DB :=
  if negb (bool_decide (ChatMessageReq.role req ∈ valid_roles)) then
    (HTTPException 400 "Invalid role", d)
  else
    let m :=
      Message.mk (uuid4 env) (ChatMessageReq.session_id req)
                 (ChatMessageReq.role req) (ChatMessageReq.content req)
                 (utcnow env) in
    match add_message m d with
    | Committed d' => (Return ok_true, d')
    | Refused_value => (DataError, d)
    | Refused_key => (IntegrityError, d)
    end.

(** POST /session/end *)
Definition end_session (env : Env) (req : EndSessionReq.t) (d : DB)
  : outcome json * DB :=
  match get_session (EndSessionReq.session_id req) d with
  | None => (HTTPException 404 "Session not found", d)
  | Some sess =>
      let sess := Session.set_ended_at (Some (utcnow env)) sess in
      (Return ok_true, update_session (EndSessionReq.session_id req) sess d)
  end.

Definition likert (key label : string) : json :=
  JObj [("key", JStr key); ("type", JStr "likert"); ("label", JStr label);
        ("scale_min", JInt 1); ("scale_max", JInt 5)].

Definition questions : list json :=
  [ likert "believability" "Is the environment believable?";
    likert "realism" "Is it realistic?";
    likert "design_opt" "Is this design optimized for your task?";
    likert "ease_use" "How easy was it to use?";
    likert "trust" "How much did you trust the responses?";
    likert "task_success" "Were you able to complete the intended task?";
    JObj [("key", JStr "free_text"); ("type", JStr "text");
          ("label",
           JStr "Any suggestions to improve realism or usefulness?")] ].

(** POST /feedback/start: the handler takes no database session. *)
Definition feedback_start (req : FeedbackStartReq.t) : json :=
  JObj [("session_id", JStr (FeedbackStartReq.session_id req));
        ("questions", JArr questions)].

(** POST /feedback/answer *)
Definition feedback_answer (env : Env) (req : FeedbackAnswerReq.t) (d : DB)
  : outcome json * DB :=
  let row :=
    FeedbackResponse.mk (uuid4 env)
      (FeedbackAnswerReq.session_id req) (FeedbackAnswerReq.q_key req)
      (FeedbackAnswerReq.answer_numeric req)
      (FeedbackAnswerReq.answer_text req) (utcnow env) in
  match add_feedback row d with
  | Committed d' => (Return ok_true, d')
  | Refused_value => (DataError, d)
  | Refused_key => (IntegrityError, d)
  end.

(** ** The feedback query and the export formatters *)

(** [s.query(FeedbackResponse).order_by(FeedbackResponse.ts.asc()).all()]:
    the rows of the table in ascending [ts].  The statement has no further
    sort key, so the engine may return rows with equal [ts] in any order;
    this function returns one of these orders.  What is stated on the
    contents of the exports is stated for every rearrangement of the table
    that is sorted on [ts], and what is stated on the order of the rows is
    stated for tables whose timestamps differ. *)
Fixpoint insert_by_ts (r : FeedbackResponse.t) (l : list FeedbackResponse.t)
  : list FeedbackResponse.t :=
  match l with
  | [] => [r]
  | x :: l' =>
      if dt_leb (FeedbackResponse.ts r) (FeedbackResponse.ts x)
      then r :: x :: l'
      else x :: insert_by_ts r l'
  end.

Fixpoint order_by_ts (l : list FeedbackResponse.t)
  : list FeedbackResponse.t :=
  match l with
  | [] => []
  | r :: l' => insert_by_ts r (order_by_ts l')
  end.

Definition query_feedback (d : DB) : list FeedbackResponse.t :=
  order_by_ts (feedback_responses d).

(** A value handed to [csv.writer.writerow]. *)
Inductive cell :=
| CStr (s : string)
| CInt (z : Z).

Definition cell_text (c : cell) : string :=
  match c with
  | CStr s => s
  | CInt z => pretty z
  end.

(** [csv.writer(buf, lineterminator='\n')]: the excel dialect (comma,
    double quote, doubled quotes inside a quoted field, minimal quoting)
    with the line terminator of the call. *)
Definition lineterminator : string := String LF EmptyString.

Definition special (c : ascii) : bool :=
  Ascii.eqb c COMMA || Ascii.eqb c DQUOTE || contains c lineterminator.

Fixpoint needs_quote (s : string) : bool :=
  match s with
  | EmptyString => false
  | String c s' => special c || needs_quote s'
  end.

Fixpoint double_quotes (s : string) : string :=
  match s with
  | EmptyString => EmptyString
  | String c s' =>
      if Ascii.eqb c DQUOTE then String c (String c (double_quotes s'))
      else String c (double_quotes s')
  end.

Definition write_field (s : string) : string :=
  if needs_quote s
  then String DQUOTE (double_quotes s) +:+ String DQUOTE EmptyString
  else s.

Fixpoint join (sep : ascii) (fields : list string) : string :=
  match fields with
  | [] => EmptyString
  | [f] => f
  | f :: rest => f +:+ String sep (join sep rest)
  end.

(** A record that would come out empty (one empty field) is written as a
    quoted empty field. *)
Definition writerow (row : list cell) : string :=
  let line := join COMMA (write_field ∘ cell_text <$> row) in
  match row, line with
  | _ :: _, EmptyString => String DQUOTE (String DQUOTE EmptyString)
  | _, _ => line
  end +:+ lineterminator.

Definition BOM : string :=
  String (Ascii.ascii_of_nat 239)
    (String (Ascii.ascii_of_nat 187)
       (String (Ascii.ascii_of_nat 191) EmptyString)).

Definition csv_header : list cell :=
  [CStr "session_id"; CStr "q_key"; CStr "answer_numeric";
   CStr "answer_text"; CStr "ts"].

Definition csv_row (r : FeedbackResponse.t) : list cell :=
  [ CStr (FeedbackResponse.session_id r);
    CStr (FeedbackResponse.q_key r);
    match FeedbackResponse.answer_numeric r with
    | None => CStr EmptyString
    | Some z => CInt z
    end;
    CStr (replace LF SPACE (or_empty (FeedbackResponse.answer_text r)));
    CStr (isoformat (FeedbackResponse.ts r)) ].

Record StreamingResponse := mkStreaming {
  media_type : string;
  headers : list (string * string);
  body : string
}.

(** The rows written after the header, one [writerow] each. *)
Definition csv_lines (rows : list FeedbackResponse.t) : string :=
  foldr (fun r out => writerow (csv_row r) +:+ out) EmptyString rows.

(** GET /feedback/export.csv *)
Definition export_feedback_csv (env : Env) (d : DB) : StreamingResponse :=
  let buf :=
    BOM +:+ writerow csv_header +:+ csv_lines (query_feedback d) in
  mkStreaming "text/csv; charset=utf-8"
    [("Content-Disposition",
      "attachment; filename=" +:+ String DQUOTE
        ("feedback_" +:+ strftime_Ymd_HMS (utcnow env) +:+ ".csv"
         +:+ String DQUOTE EmptyString))]
    buf.

Definition json_row (r : FeedbackResponse.t) : json :=
  JObj [("session_id", JStr (FeedbackResponse.session_id r));
        ("q_key", JStr (FeedbackResponse.q_key r));
        ("answer_numeric", opt_int (FeedbackResponse.answer_numeric r));
        ("answer_text", opt_str (FeedbackResponse.answer_text r));
        ("ts", JStr (isoformat (FeedbackResponse.ts r)))].

(** GET /feedback/export.json *)
Definition export_feedback_json (d : DB) : json :=
  JArr (json_row <$> query_feedback d).

(** ** The application: routing of a request to its handler *)

Inductive Request :=
| GET_healthz
| POST_session_start (req : StartSessionReq.t)
| POST_chat_message (req : ChatMessageReq.t)
| POST_session_end (req : EndSessionReq.t)
| POST_feedback_start (req : FeedbackStartReq.t)
| POST_feedback_answer (req : FeedbackAnswerReq.t)
| GET_feedback_export_csv
| GET_feedback_export_json.

Inductive Response :=
| JSONBody (j : json)
| Streaming (r : StreamingResponse).

Definition json_response {A} (f : A -> json) (x : outcome A * DB)
  : outcome Response * DB :=
  match x with
  | (Return a, d) => (Return (JSONBody (f a)), d)
  | (HTTPException c m, d) => (HTTPException c m, d)
  | (IntegrityError, d) => (IntegrityError, d)
  | (DataError, d) => (DataError, d)
  end.

Definition app (env : Env) (r : Request) (d : DB) : outcome Response * DB :=
  match r with
  | GET_healthz => (Return (JSONBody healthz), d)
  | POST_session_start req =>
      json_response
        (fun x => JObj [("session_id", JStr (StartSessionResp.session_id x))])
        (start_session env req d)
  | POST_chat_message req => json_response id (save_message env req d)
  | POST_session_end req => json_response id (end_session env req d)
  | POST_feedback_start req =>
      (Return (JSONBody (feedback_start req)), d)
  | POST_feedback_answer req => json_response id (feedback_answer env req d)
  | GET_feedback_export_csv =>
      (Return (Streaming (export_feedback_csv env d)), d)
  | GET_feedback_export_json =>
      (Return (JSONBody (export_feedback_json d)), d)
  end.

(** ** Notions used in the statements *)

(** Row [a] is not later than row [b]. *)
Definition ts_le (a b : FeedbackResponse.t) : Prop :=
  dt_le (FeedbackResponse.ts a) (FeedbackResponse.ts b).

(** The end timestamp is set and not earlier than the start timestamp. *)
Definition ended_not_before_start (s : Session.t) : Prop :=
  match Session.ended_at s with
  | Some e => dt_le (Session.started_at s) e
  | None => False
  end.

(** Both end timestamps are set and the second is strictly later. *)
Definition ended_strictly_later (s1 s2 : Session.t) : Prop :=
  match Session.ended_at s1, Session.ended_at s2 with
  | Some e1, Some e2 => dt_lt e1 e2
  | _, _ => False
  end.

(** The keys of the catalog, in its order. *)
Definition question_keys : list string :=
  ["believability"; "realism"; "design_opt"; "ease_use"; "trust";
   "task_success"; "free_text"].

(** A Likert question with scale 1 to 5. *)
Definition is_likert_1_5 (q : json) : Prop :=
  field "type" q = Some (JStr "likert") /\
  field "scale_min" q = Some (JInt 1) /\
  field "scale_max" q = Some (JInt 5).

(** A free-text question: no scale bounds in the dict. *)
Definition is_free_text (q : json) : Prop :=
  field "type" q = Some (JStr "text") /\
  field "scale_min" q = None /\
  field "scale_max" q = None.

(** A null text answer replaced by the empty string, anything else kept. *)
Definition empty_for_null (r : FeedbackResponse.t) : FeedbackResponse.t :=
  match FeedbackResponse.answer_text r with
  | None =>
      FeedbackResponse.mk (FeedbackResponse.id r)
        (FeedbackResponse.session_id r) (FeedbackResponse.q_key r)
        (FeedbackResponse.answer_numeric r) (Some EmptyString)
        (FeedbackResponse.ts r)
  | Some _ => r
  end.

(** The database with [f] applied to every feedback row. *)
Definition map_feedback (f : FeedbackResponse.t -> FeedbackResponse.t)
    (d : DB) : DB :=
  mkDB (enforce_fk d) (sessions d) (messages d) (f <$> feedback_responses d).

(** A submission: the request together with the identifier and clock
    draws of its handling. *)
Definition submission : Type := Env * FeedbackAnswerReq.t.

(** The database after one submission and after a sequence of them. *)
Definition submit (d : DB) (s : submission) : DB :=
  snd (feedback_answer (fst s) (snd s) d).

Definition submit_all (subs : list submission) (d : DB) : DB :=
  foldl submit d subs.

(** The row a submission asks to store. *)
Definition row_of (s : submission) : FeedbackResponse.t :=
  FeedbackResponse.mk (uuid4 (fst s))
    (FeedbackAnswerReq.session_id (snd s)) (FeedbackAnswerReq.q_key (snd s))
    (FeedbackAnswerReq.answer_numeric (snd s))
    (FeedbackAnswerReq.answer_text (snd s)) (utcnow (fst s)).

(** The text holds no NUL. *)
Definition nul_free (s : string) : Prop := contains NUL s = false.

(** A null, or an integer of [k] bits and a sign. *)
Definition fits_bits (k : Z) (n : option Z) : Prop :=
  match n with
  | None => True
  | Some z => - 2 ^ k <= z < 2 ^ k
  end.

(** The session reference is accepted: the engine does not enforce the
    foreign key, or the session is stored. *)
Definition reference_ok (d : DB) (sid : string) : Prop :=
  enforce_fk d = false \/ is_Some (sessions d !! sid).

(** The engine binds these texts: any on SQLite, those without NUL on
    Postgres. *)
Definition stores_texts (d : DB) (texts : list string) : Prop :=
  enforce_fk d = false \/ Forall nul_free texts.

(** The engine stores this number in an [Integer] column: 64 bits on
    SQLite, 32 bits on Postgres. *)
Definition stores_int (d : DB) (n : option Z) : Prop :=
  if enforce_fk d then fits_bits 31 n else fits_bits 63 n.

(** The engine accepts the insert of a chat message: the drawn id is
    unused, the session reference is accepted, and the values can be
    stored. *)
Definition message_accepted (d : DB) (env : Env) (req : ChatMessageReq.t)
  : Prop :=
  (uuid4 env ∉ message_ids d) /\
  reference_ok d (ChatMessageReq.session_id req) /\
  stores_texts d
    [uuid4 env; ChatMessageReq.session_id req; ChatMessageReq.content req].

(** The engine accepts the insert of a feedback answer. *)
Definition feedback_accepted (d : DB) (env : Env) (req : FeedbackAnswerReq.t)
  : Prop :=
  (uuid4 env ∉ feedback_ids d) /\
  reference_ok d (FeedbackAnswerReq.session_id req) /\
  stores_texts d
    (uuid4 env :: FeedbackAnswerReq.session_id req
       :: FeedbackAnswerReq.q_key req
       :: option_list (FeedbackAnswerReq.answer_text req)) /\
  stores_int d (FeedbackAnswerReq.answer_numeric req).

(** The engine accepts the insert of a submission. *)
Definition accepted (d : DB) (s : submission) : Prop :=
  feedback_accepted d (fst s) (snd s).

(** ** Reading the exports back

    What the exports are to contain is stated on what a reader gets out
    of them, by definitions of their own: a reader of CSV text (fields
    separated by commas, records ended by a line feed, a field in double
    quotes holding commas, line feeds and doubled double quotes), the
    record expected for a stored row, and the keys expected in its JSON
    object. *)

Inductive reading := FieldStart | Unquoted | Quoted | QuoteSeen.

Definition cons_char (c : ascii)
    (x : string * list string * list (list string))
  : string * list string * list (list string) :=
  let '(f, fs, rs) := x in (String c f, fs, rs).

Definition cons_str (p : string)
    (x : string * list string * list (list string))
  : string * list string * list (list string) :=
  let '(f, fs, rs) := x in (p +:+ f, fs, rs).

(** The rest of the current field, the further fields of the current
    record, and the further records. *)
Fixpoint read_fields (m : reading) (s : string)
  : string * list string * list (list string) :=
  match s with
  | EmptyString => (EmptyString, [], [])
  | String c s' =>
      match m with
      | Quoted =>
          if Ascii.eqb c DQUOTE then read_fields QuoteSeen s'
          else cons_char c (read_fields Quoted s')
      | _ =>
          if Ascii.eqb c COMMA then
            let '(f, fs, rs) := read_fields FieldStart s' in
            (EmptyString, f :: fs, rs)
          else if Ascii.eqb c LF then
            (EmptyString, [],
             match s' with
             | EmptyString => []
             | String _ _ =>
                 let '(f, fs, rs) := read_fields FieldStart s' in
                 (f :: fs) :: rs
             end)
          else if Ascii.eqb c DQUOTE then
            match m with
            | FieldStart => read_fields Quoted s'
            | QuoteSeen => cons_char c (read_fields Quoted s')
            | _ => cons_char c (read_fields Unquoted s')
            end
          else cons_char c (read_fields Unquoted s')
      end
  end.

Definition read_csv (s : string) : list (list string) :=
  match s with
  | EmptyString => []
  | String _ _ =>
      let '(f, fs, rs) := read_fields FieldStart s in (f :: fs) :: rs
  end.

(** A text answer as the CSV export is to show it: nothing for a null,
    and a space for every line feed. *)
Definition flat_text (t : option string) : string :=
  match t with
  | None => EmptyString
  | Some s =>
      string_of_list_ascii
        ((fun c : ascii => if Ascii.eqb c LF then SPACE else c)
           <$> list_ascii_of_string s)
  end.

(** A number as the CSV export is to show it: nothing for a null. *)
Definition number_text (n : option Z) : string :=
  match n with
  | None => EmptyString
  | Some z => pretty z
  end.

Definition csv_header_record : list string :=
  ["session_id"; "q_key"; "answer_numeric"; "answer_text"; "ts"].

(** The record a reader of the CSV export is to get for a stored row. *)
Definition csv_record (r : FeedbackResponse.t) : list string :=
  [ FeedbackResponse.session_id r;
    FeedbackResponse.q_key r;
    number_text (FeedbackResponse.answer_numeric r);
    flat_text (FeedbackResponse.answer_text r);
    isoformat (FeedbackResponse.ts r) ].

(** The JSON object [j] shows the stored row [r]: the five keys with the
    stored values, null for a null. *)
Definition json_shows (r : FeedbackResponse.t) (j : json) : Prop :=
  field "session_id" j = Some (JStr (FeedbackResponse.session_id r)) /\
  field "q_key" j = Some (JStr (FeedbackResponse.q_key r)) /\
  field "answer_numeric" j
    = Some match FeedbackResponse.answer_numeric r with
           | Some z => JInt z
           | None => JNull
           end /\
  field "answer_text" j
    = Some match FeedbackResponse.answer_text r with
           | Some t => JStr t
           | None => JNull
           end /\
  field "ts" j = Some (JStr (isoformat (FeedbackResponse.ts r))).

(** Both exports show the rows [rows], in this order: the CSV response
    is the byte-order mark followed by text that reads as the header record
    and one record per row, and the JSON response is an array of one object
    per row. *)
Definition exports_show (env : Env) (d : DB)
    (rows : list FeedbackResponse.t) : Prop :=
  (exists text,
     body (export_feedback_csv env d) = BOM +:+ text /\
     read_csv text = csv_header_record :: (csv_record <$> rows)) /\
  (exists items,
     export_feedback_json d = JArr items /\ Forall2 json_shows rows items).

(** Row [a] is strictly earlier than row [b]. *)
Definition ts_lt (a b : FeedbackResponse.t) : Prop :=
  dt_lt (FeedbackResponse.ts a) (FeedbackResponse.ts b).

(** The rows of the table for one (session_id, q_key) pair. *)
Definition of_pair (sid qk : string) (r : FeedbackResponse.t) : Prop :=
  FeedbackResponse.session_id r = sid /\ FeedbackResponse.q_key r = qk.

Definition rows_of_pair (sid qk : string) (l : list FeedbackResponse.t)
  : list FeedbackResponse.t :=
  filter (of_pair sid qk) l.

(** ** Sample data *)

(** A clock reading, up to its microseconds. *)
Definition at_us (us : N) : datetime := mk_datetime 2024 1 2 3 4 5 us.

Definition sample_session : Session.t :=
  Session.mk (at_us 5) None true None (Some "Mozilla/5.0") None.

(** One session [s1], no messages, no feedback, on the default engine. *)
Definition db_s1 : DB := mkDB false {[ "s1" := sample_session ]} [] [].

(** The same tables on an engine that enforces foreign keys. *)
Definition db_s1_fk : DB := mkDB true {[ "s1" := sample_session ]} [] [].

(** Two stored answers, the later one inserted first. *)
Definition sample_feedback : list FeedbackResponse.t :=
  [ FeedbackResponse.mk "f1" "s1" "trust" None
      (Some ("line one" +:+ String LF "line two")) (at_us 7);
    FeedbackResponse.mk "f2" "s1" "realism" (Some 4) None (at_us 3) ].

Definition db_feedback : DB :=
  mkDB false {[ "s1" := sample_session ]} [] sample_feedback.

(** Two submissions of the pair (s1, realism). *)
Definition two_answers : list submission :=
  [ (mkEnv "f3" (at_us 8), FeedbackAnswerReq.mk "s1" "realism" (Some 2) None);
    (mkEnv "f4" (at_us 9), FeedbackAnswerReq.mk "s1" "realism" (Some 5) None) ].

(** ** Configuration read at import time *)

(** [s.startswith(p)] *)
Fixpoint startswith (p s : string) : bool :=
  match p, s with
  | EmptyString, _ => true
  | String a p', String b s' => Ascii.eqb a b && startswith p' s'
  | String _ _, EmptyString => false
  end.

(** [p in s] for strings. *)
Fixpoint contains_str (p s : string) : bool :=
  startswith p s ||
  match s with
  | EmptyString => false
  | String _ s' => contains_str p s'
  end.

(** [s[n:]] *)
Fixpoint drop_str (n : nat) (s : string) : string :=
  match n, s with
  | O, _ => s
  | S n', String _ s' => drop_str n' s'
  | S _, EmptyString => EmptyString
  end.

(** [s.replace(old, new, 1)]: the first occurrence of [old], if any. *)
Fixpoint replace_first (old new s : string) : string :=
  if startswith old s then new +:+ drop_str (String.length old) s
  else
    match s with
    | EmptyString => EmptyString
    | String c s' => String c (replace_first old new s')
    end.

Definition DEFAULT_DATABASE_URL : string := "sqlite:///./feedback.db".

(** The rewriting of [DATABASE_URL] that selects the psycopg driver. *)
Definition normalize_database_url (url : string) : string :=
  if startswith "postgres://" url then
    replace_first "postgres://" "postgresql+psycopg://" url
  else if startswith "postgresql://" url
          && negb (contains_str "+psycopg" url) then
    replace_first "postgresql://" "postgresql+psycopg://" url
  else url.

(** [DATABASE_URL] as the engine gets it; the argument is the value of
    the environment variable, [None] when it is not set. *)
Definition DATABASE_URL (getenv : option string) : string :=
  normalize_database_url (default DEFAULT_DATABASE_URL getenv).

(** [connect_args] of [create_engine]. *)
Definition connect_args (url : string) : list (string * bool) :=
  if startswith "sqlite" url then [("check_same_thread", false)] else [].

(** [s.split(sep)] for a one-character separator. *)
Fixpoint split (sep : ascii) (s : string) : list string :=
  match s with
  | EmptyString => [EmptyString]
  | String c s' =>
      if Ascii.eqb c sep then EmptyString :: split sep s'
      else
        match split sep s' with
        | piece :: rest => String c piece :: rest
        | [] => [String c EmptyString]
        end
  end.

(** [s.count(c)] for a character. *)
Fixpoint count_char (c : ascii) (s : string) : nat :=
  match s with
  | EmptyString => O
  | String c' s' => (if Ascii.eqb c' c then 1 else 0) + count_char c s'
  end.

(** The characters that [str.isspace] accepts, as their UTF-8 bytes:
    U+0009 to U+000D, U+001C to U+0020; U+0085 and U+00A0; U+1680, U+2000
    to U+200A, U+2028, U+2029, U+202F, U+205F and U+3000. *)
Definition is_byte (n : N) (c : ascii) : bool := (N_of_ascii c =? n)%N.

Definition in_bytes (lo hi : N) (c : ascii) : bool :=
  ((lo <=? N_of_ascii c) && (N_of_ascii c <=? hi))%N.

Definition isspace1 (a : ascii) : bool := in_bytes 9 13 a || in_bytes 28 32 a.

Definition isspace2 (a b : ascii) : bool :=
  is_byte 194 a && (is_byte 133 b || is_byte 160 b).

Definition isspace3 (a b c : ascii) : bool :=
  is_byte 225 a && is_byte 154 b && is_byte 128 c
  || is_byte 226 a && is_byte 128 b
     && (in_bytes 128 138 c || is_byte 168 c || is_byte 169 c
         || is_byte 175 c)
  || is_byte 226 a && is_byte 129 b && is_byte 159 c
  || is_byte 227 a && is_byte 128 b && is_byte 128 c.

(** Removal of the leading characters recognised by [w1], [w2], [w3]
    (encodings of one, two and three bytes). *)
Fixpoint lstrip_with (w1 : ascii -> bool) (w2 : ascii -> ascii -> bool)
    (w3 : ascii -> ascii -> ascii -> bool) (s : string) : string :=
  match s with
  | EmptyString => EmptyString
  | String a s1 =>
      if w1 a then lstrip_with w1 w2 w3 s1
      else
        match s1 with
        | EmptyString => s
        | String b s2 =>
            if w2 a b then lstrip_with w1 w2 w3 s2
            else
              match s2 with
              | EmptyString => s
              | String c s3 =>
                  if w3 a b c then lstrip_with w1 w2 w3 s3 else s
              end
        end
  end.

Definition lstrip (s : string) : string :=
  lstrip_with isspace1 isspace2 isspace3 s.

(** The same from the end: the bytes of a character come in reverse. *)
Definition rstrip (s : string) : string :=
  String.rev
    (lstrip_with isspace1 (fun b a => isspace2 a b)
       (fun c b a => isspace3 a b c) (String.rev s)).

(** [s.strip()] *)
Definition strip (s : string) : string := rstrip (lstrip s).

(** [allow_origins] of the CORS middleware; the argument is the value
    of the environment variable [CORS_ORIGINS], [None] when it is not
    set. *)
Definition allow_origins (getenv : option string) : list string :=
  match default "*" getenv with
  | EmptyString => ["*"]
  | String c s => strip <$> split COMMA (String c s)
  end.

(** ** Runs of the application *)

(** The tables as [Base.metadata.create_all] makes them in a new
    database. *)
Definition empty_db (fk : bool) : DB := mkDB fk ∅ [] [].

(** A call: a request with the draws of its handling. *)
Definition call : Type := Env * Request.

Definition step (d : DB) (c : call) : DB := snd (app (fst c) (snd c) d).

Definition run (calls : list call) (d : DB) : DB := foldl step d calls.

(** The ways in which one request can change the database. *)
Inductive change (d : DB) : DB -> Prop :=
| change_none : change d d
| change_session_added id x :
    sessions d !! id = None ->
    Session.ended_at x = None ->
    Session.notes x = None ->
    change d (mkDB (enforce_fk d) (<[id := x]> (sessions d))
                   (messages d) (feedback_responses d))
| change_session_ended id x now :
    sessions d !! id = Some x ->
    change d (mkDB (enforce_fk d)
                   (<[id := Session.set_ended_at (Some now) x]> (sessions d))
                   (messages d) (feedback_responses d))
| change_message_added m :
    Message.role m ∈ valid_roles ->
    Message.id m ∉ message_ids d ->
    fk_ok d (Message.session_id m) = true ->
    change d (mkDB (enforce_fk d) (sessions d) (messages d ++ [m])
                   (feedback_responses d))
| change_feedback_added r :
    FeedbackResponse.id r ∉ feedback_ids d ->
    fk_ok d (FeedbackResponse.session_id r) = true ->
    change d (mkDB (enforce_fk d) (sessions d) (messages d)
                   (feedback_responses d ++ [r])).

(** Every stored message has one of the three roles. *)
Definition roles_valid (d : DB) : Prop :=
  Forall (fun m => Message.role m ∈ valid_roles) (messages d).

(** No two messages and no two feedback rows share an [id]. *)
Definition ids_unique (d : DB) : Prop :=
  NoDup (message_ids d) /\ NoDup (feedback_ids d).

(** Every message and feedback row belongs to a stored session. *)
Definition references_resolve (d : DB) : Prop :=
  Forall (fun m => is_Some (sessions d !! Message.session_id m))
         (messages d) /\
  Forall (fun r => is_Some (sessions d !! FeedbackResponse.session_id r))
         (feedback_responses d).

(** No session has [notes]. *)
Definition notes_unset (d : DB) : Prop :=
  forall id x, sessions d !! id = Some x -> Session.notes x = None.

(** Every session of [d] is still in [d'], with the columns set at its
    creation unchanged and its end timestamp still set if it was. *)
Definition sessions_kept (d d' : DB) : Prop :=
  forall id x,
    sessions d !! id = Some x ->
    exists x',
      sessions d' !! id = Some x' /\
      Session.started_at x' = Session.started_at x /\
      Session.consented x' = Session.consented x /\
      Session.research_version x' = Session.research_version x /\
      Session.user_agent x' = Session.user_agent x /\
      Session.notes x' = Session.notes x /\
      (is_Some (Session.ended_at x) -> is_Some (Session.ended_at x')).

(** The message and feedback tables of [d'] are those of [d] followed
    by new rows, on the same engine. *)
Definition tables_extended (d d' : DB) : Prop :=
  enforce_fk d' = enforce_fk d /\
  (exists ms, messages d' = (messages d ++ ms)%list) /\
  (exists rs, feedback_responses d' = (feedback_responses d ++ rs)%list).

(** The request is a feedback-answer submission. *)
Definition is_feedback_answer (r : Request) : bool :=
  match r with
  | POST_feedback_answer _ => true
  | _ => false
  end.

(** A chat session: start, two messages (the second with a role that
    is refused), one feedback answer, end. *)
Definition sample_calls : list call :=
  [ (mkEnv "s9" (at_us 1),
     POST_session_start (StartSessionReq.parse (Some true) None None));
    (mkEnv "m1" (at_us 2),
     POST_chat_message (ChatMessageReq.mk "s9" "user" "hello"));
    (mkEnv "m2" (at_us 3),
     POST_chat_message (ChatMessageReq.mk "s9" "bot" "hi"));
    (mkEnv "f1" (at_us 4),
     POST_feedback_answer
       (FeedbackAnswerReq.mk "s9" "trust" (Some 5) None));
    (mkEnv "e1" (at_us 5), POST_session_end (EndSessionReq.mk "s9")) ].

(** A session with three feedback answers, submitted at later and
    later clock readings. *)
Definition sample_answers : list call :=
  [ (mkEnv "s9" (at_us 1),
     POST_session_start (StartSessionReq.parse (Some true) None None));
    (mkEnv "f1" (at_us 2),
     POST_feedback_answer
       (FeedbackAnswerReq.mk "s9" "trust" (Some 5) None));
    (mkEnv "f2" (at_us 4),
     POST_feedback_answer
       (FeedbackAnswerReq.mk "s9" "realism" (Some 2) None));
    (mkEnv "f3" (at_us 7),
     POST_feedback_answer
       (FeedbackAnswerReq.mk "s9" "free_text" None (Some "fine")));
    (mkEnv "e1" (at_us 9), POST_session_end (EndSessionReq.mk "s9")) ].

(** * Properties *)

(** ** Timestamps are totally pre-ordered *)

Section DatetimeOrder.

Lemma lex_compare_refl (a : list N) : lex_compare a a = Eq.
Proof.
  induction a as [|x a IH]; simpl; [reflexivity|].
  now rewrite N.compare_refl.
Qed.

Lemma lex_compare_antisym (a b : list N) :
  lex_compare b a = CompOpp (lex_compare a b).
Proof.
  revert b; induction a as [|x a IH]; intros [|y b]; simpl; try reflexivity.
  rewrite (N.compare_antisym x y).
  destruct (x ?= y)%N; simpl; auto.
Qed.

Lemma lex_compare_le_trans (a b c : list N) :
  lex_compare a b <> Gt -> lex_compare b c <> Gt -> lex_compare a c <> Gt.
Proof.
  revert b c; induction a as [|x a IH]; intros [|y b] [|z c]; simpl;
    try congruence.
  destruct (N.compare_spec x y), (N.compare_spec y z),
    (N.compare_spec x z); subst; try congruence; try lia; eauto.
Qed.

Lemma dt_le_refl (a : datetime) : dt_le a a.
Proof. unfold dt_le, dt_leb, dt_compare. now rewrite lex_compare_refl. Qed.

Lemma dt_le_trans (a b c : datetime) : dt_le a b -> dt_le b c -> dt_le a c.
Proof.
  unfold dt_le, dt_leb, dt_compare; intros Hab Hbc.
  pose proof (lex_compare_le_trans (dt_tuple a) (dt_tuple b) (dt_tuple c)) as T.
  destruct (lex_compare (dt_tuple a) (dt_tuple b)); try discriminate;
    destruct (lex_compare (dt_tuple b) (dt_tuple c)); try discriminate;
    destruct (lex_compare (dt_tuple a) (dt_tuple c)); try reflexivity;
    exfalso; apply T; congruence.
Qed.

Lemma dt_leb_total (a b : datetime) : dt_leb a b = false -> dt_leb b a = true.
Proof.
  unfold dt_leb, dt_compare.
  rewrite (lex_compare_antisym (dt_tuple a) (dt_tuple b)).
  destruct (lex_compare (dt_tuple a) (dt_tuple b)); simpl; congruence.
Qed.

Lemma dt_ltb_irrefl (a : datetime) : dt_ltb a a = false.
Proof. unfold dt_ltb, dt_compare. now rewrite lex_compare_refl. Qed.

Lemma dt_ltb_leb (a b : datetime) : dt_ltb a b = negb (dt_leb b a).
Proof.
  unfold dt_ltb, dt_leb, dt_compare.
  rewrite (lex_compare_antisym (dt_tuple a) (dt_tuple b)).
  destruct (lex_compare (dt_tuple a) (dt_tuple b)); reflexivity.
Qed.

End DatetimeOrder.

(** ** The feedback query sorts the table *)

Section OrderBy.

Implicit Types (r : FeedbackResponse.t) (l : list FeedbackResponse.t).

Lemma insert_by_ts_perm r l : Permutation (insert_by_ts r l) (r :: l).
Proof.
  induction l as [|x l IH]; simpl; [reflexivity|].
  destruct (dt_leb _ _); [reflexivity|].
  rewrite IH. apply perm_swap.
Qed.

Lemma order_by_ts_perm l : Permutation (order_by_ts l) l.
Proof.
  induction l as [|r l IH]; simpl; [constructor|].
  rewrite insert_by_ts_perm. now constructor.
Qed.

Lemma insert_by_ts_sorted r l :
  StronglySorted ts_le l -> StronglySorted ts_le (insert_by_ts r l).
Proof.
  induction 1 as [|x l Hl IH Hx]; simpl.
  - repeat constructor.
  - destruct (dt_leb (FeedbackResponse.ts r) (FeedbackResponse.ts x)) eqn:E.
    + constructor; [now constructor|].
      constructor; [exact E|].
      eapply Forall_impl; [exact Hx|].
      intros y Hy. eapply dt_le_trans; [exact E|exact Hy].
    + constructor; [exact IH|].
      rewrite (insert_by_ts_perm r l).
      constructor; [|exact Hx].
      now apply dt_leb_total.
Qed.

Lemma order_by_ts_sorted l : StronglySorted ts_le (order_by_ts l).
Proof.
  induction l as [|r l IH]; simpl; [constructor|].
  now apply insert_by_ts_sorted.
Qed.

(** Rewriting columns other than [ts] commutes with the query. *)
Lemma order_by_ts_fmap (f : FeedbackResponse.t -> FeedbackResponse.t) l :
  (forall r, FeedbackResponse.ts (f r) = FeedbackResponse.ts r) ->
  order_by_ts (f <$> l) = f <$> order_by_ts l.
Proof.
  intros Hf. induction l as [|r l IH]; csimpl; [reflexivity|].
  rewrite IH. clear IH.
  induction (order_by_ts l) as [|x s IHs]; csimpl; [reflexivity|].
  rewrite !Hf. destruct (dt_leb _ _); csimpl; [reflexivity|].
  now rewrite IHs.
Qed.

Lemma elem_of_query_feedback r (d : DB) :
  r ∈ query_feedback d <-> r ∈ feedback_responses d.
Proof. unfold query_feedback. now rewrite order_by_ts_perm. Qed.

End OrderBy.

(** ** session-end *)

Lemma end_session_absent env req d :
  sessions d !! EndSessionReq.session_id req = None ->
  end_session env req d = (HTTPException 404 "Session not found", d).
Proof. intros H. unfold end_session, get_session. now rewrite H. Qed.

Lemma end_session_present env req d sess :
  sessions d !! EndSessionReq.session_id req = Some sess ->
  end_session env req d =
    (Return ok_true,
     update_session (EndSessionReq.session_id req)
       (Session.set_ended_at (Some (utcnow env)) sess) d).
Proof. intros H. unfold end_session, get_session. now rewrite H. Qed.

Lemma lookup_update_session_eq id x d :
  sessions (update_session id x d) !! id = Some x.
Proof. apply lookup_insert_eq. Qed.

Lemma lookup_update_session_ne id k x d :
  k <> id -> sessions (update_session id x d) !! k = sessions d !! k.
Proof. intros H. apply lookup_insert_ne. congruence. Qed.



(** C10: session-end on an existing session changes nothing but that
    session's end timestamp: its identifier (the key it is stored under),
    start timestamp, consent flag, research_version, user_agent and notes
    are as before, every other session is as before, no session is added
    or removed, and the message and feedback tables are untouched. *)
Theorem end_session_frame (env : Env) (req : EndSessionReq.t) (d : DB)
    (sess : Session.t) :
  sessions d !! EndSessionReq.session_id req = Some sess ->
  exists d' sess',
    end_session env req d = (Return ok_true, d') /\
    sessions d' !! EndSessionReq.session_id req = Some sess' /\
    Session.started_at sess' = Session.started_at sess /\
    Session.consented sess' = Session.consented sess /\
    Session.research_version sess' = Session.research_version sess /\
    Session.user_agent sess' = Session.user_agent sess /\
    Session.notes sess' = Session.notes sess /\
    (forall k, k <> EndSessionReq.session_id req ->
               sessions d' !! k = sessions d !! k) /\
    dom (sessions d') = dom (sessions d) /\
    messages d' = messages d /\
    feedback_responses d' = feedback_responses d /\
    enforce_fk d' = enforce_fk d.
Proof.
  intros H. rewrite (end_session_present env req d sess H).
  eexists _, _. split; [reflexivity|].
  split; [apply lookup_update_session_eq|].
  repeat (split; [reflexivity|]).
  split; [intros k Hk; now apply lookup_update_session_ne|].
  split; [|repeat split].
  simpl. apply dom_insert_lookup_L. now rewrite H.
Qed.

Lemma end_session_frame_witness :
  exists d' sess',
    end_session (mkEnv "u" (at_us 9)) (EndSessionReq.mk "s1") db_s1
      = (Return ok_true, d') /\
    sessions d' !! "s1" = Some sess' /\
    Session.started_at sess' = at_us 5 /\
    Session.consented sess' = true /\
    messages d' = [] /\ feedback_responses d' = [].
Proof.
  destruct (end_session_frame (mkEnv "u" (at_us 9)) (EndSessionReq.mk "s1")
              db_s1 sample_session)
    as (d' & sess' & H1 & H2 & H3 & H4 & _ & _ & _ & _ & _ & H5 & H6 & _).
  - vm_compute. reflexivity.
  - exists d', sess'. repeat split; assumption.
Defined.

(** ** session-end and the clock *)

(** C3 (as the code has it): session-end stores the clock reading of the
    call as the end timestamp.  So the end timestamp is not earlier than
    the start timestamp exactly when that reading is not earlier than the
    start timestamp, and after a second call the end timestamp is the
    second reading, strictly later than the first exactly when the clock
    reading of the second call is strictly later than that of the first. *)
Theorem end_session_twice (env1 env2 : Env) (req : EndSessionReq.t) (d : DB)
    (sess : Session.t) :
  sessions d !! EndSessionReq.session_id req = Some sess ->
  exists d1 d2 s1 s2,
    end_session env1 req d = (Return ok_true, d1) /\
    end_session env2 req d1 = (Return ok_true, d2) /\
    sessions d1 !! EndSessionReq.session_id req = Some s1 /\
    sessions d2 !! EndSessionReq.session_id req = Some s2 /\
    Session.ended_at s1 = Some (utcnow env1) /\
    Session.ended_at s2 = Some (utcnow env2) /\
    (ended_not_before_start s1 <->
       dt_le (Session.started_at sess) (utcnow env1)) /\
    (ended_strictly_later s1 s2 <-> dt_lt (utcnow env1) (utcnow env2)).
Proof.
  intros H.
  pose proof (end_session_present env1 req d sess H) as E1.
  pose proof (lookup_update_session_eq (EndSessionReq.session_id req)
                (Session.set_ended_at (Some (utcnow env1)) sess) d) as L1.
  pose proof (end_session_present env2 req _ _ L1) as E2.
  eexists _, _, _, _.
  split; [exact E1|]. split; [exact E2|].
  split; [exact L1|]. split; [apply lookup_update_session_eq|].
  repeat split; auto.
Qed.

Lemma end_session_twice_witness :
  exists d1 d2 s1 s2,
    end_session (mkEnv "u" (at_us 8)) (EndSessionReq.mk "s1") db_s1
      = (Return ok_true, d1) /\
    end_session (mkEnv "v" (at_us 9)) (EndSessionReq.mk "s1") d1
      = (Return ok_true, d2) /\
    sessions d1 !! "s1" = Some s1 /\ sessions d2 !! "s1" = Some s2 /\
    ended_not_before_start s1 /\ ended_strictly_later s1 s2.
Proof.
  destruct (end_session_twice (mkEnv "u" (at_us 8)) (mkEnv "v" (at_us 9))
              (EndSessionReq.mk "s1") db_s1 sample_session)
    as (d1 & d2 & s1 & s2 & H1 & H2 & H3 & H4 & _ & _ & H5 & H6).
  - vm_compute. reflexivity.
  - exists d1, d2, s1, s2. repeat (split; [assumption|]). split.
    + apply H5. vm_compute. reflexivity.
    + apply H6. vm_compute. reflexivity.
Defined.

(** Two calls that read the same clock value leave the same end
    timestamp, not a strictly later one; and a reading that is earlier than
    the stored start timestamp yields an end timestamp before the start. *)
Lemma end_session_clock_counterexample :
  (exists d1 d2 s1 s2,
     end_session (mkEnv "u" (at_us 9)) (EndSessionReq.mk "s1") db_s1
       = (Return ok_true, d1) /\
     end_session (mkEnv "v" (at_us 9)) (EndSessionReq.mk "s1") d1
       = (Return ok_true, d2) /\
     sessions d1 !! "s1" = Some s1 /\ sessions d2 !! "s1" = Some s2 /\
     Session.ended_at s2 = Session.ended_at s1 /\
     ~ ended_strictly_later s1 s2)
  /\
  (exists d1 s1,
     end_session (mkEnv "u" (at_us 2)) (EndSessionReq.mk "s1") db_s1
       = (Return ok_true, d1) /\
     sessions d1 !! "s1" = Some s1 /\
     ~ ended_not_before_start s1).
Proof.
  split.
  - eexists _, _, _, _. split; [reflexivity|]. split; [reflexivity|].
    split; [vm_compute; reflexivity|]. split; [vm_compute; reflexivity|].
    split; [reflexivity|]. vm_compute. discriminate.
  - eexists _, _. split; [reflexivity|].
    split; [vm_compute; reflexivity|]. vm_compute. discriminate.
Qed.

(** ** chat-message *)

Lemma fk_ok_true d sid :
  fk_ok d sid = true <-> enforce_fk d = false \/ is_Some (sessions d !! sid).
Proof.
  unfold fk_ok. rewrite orb_true_iff, negb_true_iff, bool_decide_eq_true.
  reflexivity.
Qed.

Lemma fk_ok_false d sid :
  fk_ok d sid = false <-> enforce_fk d = true /\ sessions d !! sid = None.
Proof.
  unfold fk_ok.
  rewrite orb_false_iff, negb_false_iff, bool_decide_eq_false,
    <- eq_None_not_Some.
  reflexivity.
Qed.

Lemma text_fits_true d s :
  text_fits d s = true <-> enforce_fk d = false \/ nul_free s.
Proof.
  unfold text_fits, nul_free.
  rewrite orb_true_iff, !negb_true_iff. reflexivity.
Qed.

Lemma forallb_text_fits d texts :
  forallb (text_fits d) texts = true <-> stores_texts d texts.
Proof.
  unfold stores_texts. rewrite forallb_forall, Forall_forall.
  destruct (enforce_fk d) eqn:E.
  - split.
    + intros H. right. intros s Hs. apply list_elem_of_In in Hs.
      apply H in Hs. apply text_fits_true in Hs as [Hs|Hs]; congruence.
    + intros [H|H] s Hs; [discriminate|].
      apply text_fits_true. right. apply H. now apply list_elem_of_In.
  - split; [now left|]. intros _ s _. apply text_fits_true. now left.
Qed.

Lemma int_fits_true d n : int_fits d n = true <-> stores_int d n.
Proof.
  unfold int_fits, stores_int, fits_bits.
  destruct n as [z|]; [|now destruct (enforce_fk d)].
  destruct (enforce_fk d); rewrite andb_true_iff, Z.leb_le, Z.ltb_lt;
    reflexivity.
Qed.

Lemma valid_role_nul_free role : role ∈ valid_roles -> nul_free role.
Proof.
  unfold valid_roles. rewrite !elem_of_cons.
  intros [->|[->|[->|H]]]; try reflexivity. now apply elem_of_nil in H.
Qed.

Lemma message_fits_true d x :
  Message.role x ∈ valid_roles ->
  message_fits d x = true <->
  stores_texts d [Message.id x; Message.session_id x; Message.content x].
Proof.
  intros Hrole. apply valid_role_nul_free in Hrole.
  rewrite <- forallb_text_fits. unfold message_fits. simpl.
  assert (R : text_fits d (Message.role x) = true)
    by (apply text_fits_true; now right).
  rewrite R, !andb_true_r. now rewrite andb_assoc.
Qed.

Lemma add_message_accepted x d :
  message_fits d x = true ->
  Message.id x ∉ message_ids d ->
  fk_ok d (Message.session_id x) = true ->
  add_message x d =
    Committed (mkDB (enforce_fk d) (sessions d) (messages d ++ [x])
                    (feedback_responses d)).
Proof.
  intros Hv Hid Hfk. unfold add_message. rewrite Hv. simpl.
  rewrite bool_decide_eq_false_2 by exact Hid. now rewrite Hfk.
Qed.

Lemma add_message_orphan x d :
  fk_ok d (Message.session_id x) = false ->
  add_message x d = Refused_value \/ add_message x d = Refused_key.
Proof.
  intros Hfk. unfold add_message. rewrite Hfk.
  destruct (negb _); [now left|]. right. now destruct (bool_decide _).
Qed.

(** What [add_message] returns when it does not store the row. *)
Lemma add_message_cases x d :
  (message_fits d x = true /\ (Message.id x ∉ message_ids d) /\
   fk_ok d (Message.session_id x) = true /\
   add_message x d =
     Committed (mkDB (enforce_fk d) (sessions d) (messages d ++ [x])
                     (feedback_responses d)))
  \/
  ((message_fits d x = false \/ Message.id x ∈ message_ids d \/
    fk_ok d (Message.session_id x) = false) /\
   (add_message x d = Refused_value \/ add_message x d = Refused_key)).
Proof.
  unfold add_message.
  destruct (message_fits d x) eqn:Hv; simpl; [|right; auto].
  case_bool_decide as Hid; [right; auto|].
  destruct (fk_ok d (Message.session_id x)) eqn:Hfk; [left|right]; auto.
Qed.

Lemma message_accepted_iff d env req :
  ChatMessageReq.role req ∈ valid_roles ->
  message_accepted d env req <->
  message_fits d
    (Message.mk (uuid4 env) (ChatMessageReq.session_id req)
       (ChatMessageReq.role req) (ChatMessageReq.content req) (utcnow env))
    = true /\
  (uuid4 env ∉ message_ids d) /\
  fk_ok d (ChatMessageReq.session_id req) = true.
Proof.
  intros Hrole. unfold message_accepted, reference_ok.
  pose proof (message_fits_true d
                (Message.mk (uuid4 env) (ChatMessageReq.session_id req)
                   (ChatMessageReq.role req) (ChatMessageReq.content req)
                   (utcnow env)) Hrole) as F.
  simpl in F. rewrite F, fk_ok_true. tauto.
Qed.


Lemma save_message_accepted env req d :
  ChatMessageReq.role req ∈ valid_roles ->
  message_accepted d env req ->
  save_message env req d =
    (Return ok_true,
     mkDB (enforce_fk d) (sessions d)
       (messages d ++
        [Message.mk (uuid4 env) (ChatMessageReq.session_id req)
           (ChatMessageReq.role req) (ChatMessageReq.content req)
           (utcnow env)])
       (feedback_responses d)).
Proof.
  intros Hrole Hacc.
  apply (message_accepted_iff d env req Hrole) in Hacc as (Hv & Hid & Hfk).
  unfold save_message. rewrite bool_decide_eq_true_2 by exact Hrole. simpl.
  now rewrite add_message_accepted.
Qed.

Lemma save_message_refused env req d :
  ChatMessageReq.role req ∈ valid_roles ->
  ~ message_accepted d env req ->
  (save_message env req d = (DataError, d) \/
   save_message env req d = (IntegrityError, d)).
Proof.
  intros Hrole Hacc. unfold save_message.
  rewrite bool_decide_eq_true_2 by exact Hrole. simpl.
  destruct (add_message_cases
              (Message.mk (uuid4 env) (ChatMessageReq.session_id req)
                 (ChatMessageReq.role req) (ChatMessageReq.content req)
                 (utcnow env)) d)
    as [(Hv & Hid & Hfk & _)|(_ & [E|E])].
  - exfalso. apply Hacc. apply (message_accepted_iff d env req Hrole). auto.
  - rewrite E. now left.
  - rewrite E. now right.
Qed.

(** C1 (as the code has it): chat-message checks the role first: for
    every role string other than user, assistant, system the call fails
    with 400 and the database is unchanged, whatever the rest of the
    request.  With one of the three roles the call succeeds exactly when
    the engine accepts the insert: the row id drawn by [uuid4] is unused;
    the engine does not enforce the foreign key on [session_id] (the
    default SQLite file) or the session exists; and the engine can bind the
    texts (Postgres refuses a session_id or content holding NUL, SQLite
    binds any text).  Exactly one message row is then appended, with the
    submitted session_id, role and content.  Otherwise the commit raises,
    the client gets the server error (500) and nothing is persisted. *)
Theorem save_message_spec (env : Env) (req : ChatMessageReq.t) (d : DB) :
  (ChatMessageReq.role req ∉ valid_roles ->
   save_message env req d = (HTTPException 400 "Invalid role", d) /\
   http_status (fst (save_message env req d)) = 400)
  /\
  (ChatMessageReq.role req ∈ valid_roles ->
   message_accepted d env req ->
   exists m,
     save_message env req d =
       (Return ok_true,
        mkDB (enforce_fk d) (sessions d) (messages d ++ [m])
             (feedback_responses d)) /\
     Message.session_id m = ChatMessageReq.session_id req /\
     Message.role m = ChatMessageReq.role req /\
     Message.content m = ChatMessageReq.content req /\
     Message.id m = uuid4 env /\ Message.ts m = utcnow env)
  /\
  (ChatMessageReq.role req ∈ valid_roles ->
   ~ message_accepted d env req ->
   http_status (fst (save_message env req d)) = 500 /\
   snd (save_message env req d) = d).
Proof.
  split; [|split].
  - intros Hrole. unfold save_message.
    rewrite bool_decide_eq_false_2 by exact Hrole. split; reflexivity.
  - intros Hrole Hacc. rewrite (save_message_accepted env req d Hrole Hacc).
    eexists. split; [reflexivity|]. repeat split.
  - intros Hrole Hacc.
    destruct (save_message_refused env req d Hrole Hacc) as [-> | ->];
      split; reflexivity.
Qed.

Lemma save_message_spec_witness :
  (exists m,
     save_message (mkEnv "m1" (at_us 9))
       (ChatMessageReq.mk "nosuch" "assistant" ("a" +:+ String NUL "b")) db_s1
     = (Return ok_true, mkDB false (sessions db_s1) [m] []) /\
     Message.role m = "assistant" /\
     Message.content m = "a" +:+ String NUL "b")
  /\
  (exists m,
     save_message (mkEnv "m1" (at_us 9))
       (ChatMessageReq.mk "s1" "user" "hello") db_s1_fk
     = (Return ok_true, mkDB true (sessions db_s1_fk) [m] []) /\
     Message.role m = "user" /\ Message.content m = "hello")
  /\
  snd (save_message (mkEnv "m1" (at_us 9))
         (ChatMessageReq.mk "nosuch" "system" "hello") db_s1_fk)
  = db_s1_fk
  /\
  save_message (mkEnv "m1" (at_us 9))
    (ChatMessageReq.mk "s1" "bot" "hello") db_s1
  = (HTTPException 400 "Invalid role", db_s1).
Proof.
  repeat apply conj.
  - destruct (proj1 (proj2 (save_message_spec (mkEnv "m1" (at_us 9))
               (ChatMessageReq.mk "nosuch" "assistant"
                  ("a" +:+ String NUL "b")) db_s1)))
      as (m & H & _ & Hr & Hc & _).
    + apply (bool_decide_unpack _); vm_compute; exact I.
    + split; [|split].
      * apply (bool_decide_unpack _); vm_compute; exact I.
      * left. reflexivity.
      * left. reflexivity.
    + exists m. auto.
  - destruct (proj1 (proj2 (save_message_spec (mkEnv "m1" (at_us 9))
               (ChatMessageReq.mk "s1" "user" "hello") db_s1_fk)))
      as (m & H & _ & Hr & Hc & _).
    + apply (bool_decide_unpack _); vm_compute; exact I.
    + split; [|split].
      * apply (bool_decide_unpack _); vm_compute; exact I.
      * right. exists sample_session. vm_compute. reflexivity.
      * right. repeat constructor.
    + exists m. auto.
  - apply (proj2 (proj2 (save_message_spec (mkEnv "m1" (at_us 9))
               (ChatMessageReq.mk "nosuch" "system" "hello") db_s1_fk))).
    + apply (bool_decide_unpack _); vm_compute; exact I.
    + intros (_ & [Hfk|[x Hx]] & _); [discriminate Hfk|].
      vm_compute in Hx. discriminate Hx.
  - apply (proj1 (save_message_spec (mkEnv "m1" (at_us 9))
               (ChatMessageReq.mk "s1" "bot" "hello") db_s1)).
    apply (bool_decide_unpack _); vm_compute; exact I.
Defined.

(** On Postgres (the engine that enforces the foreign key) a message
    with a valid role is not always stored: for a session that does not
    exist the commit raises, and so it does for a content that holds NUL
    although the session exists; the client gets the server error and no
    row is added. *)
Lemma save_message_orphan_counterexample :
  ("user" ∈ valid_roles) /\
  sessions db_s1_fk !! "nosuch" = None /\
  ("m1" ∉ message_ids db_s1_fk) /\
  save_message (mkEnv "m1" (at_us 9))
    (ChatMessageReq.mk "nosuch" "user" "hello") db_s1_fk
  = (IntegrityError, db_s1_fk) /\
  http_status (fst (save_message (mkEnv "m1" (at_us 9))
    (ChatMessageReq.mk "nosuch" "user" "hello") db_s1_fk)) = 500 /\
  is_Some (sessions db_s1_fk !! "s1") /\
  save_message (mkEnv "m1" (at_us 9))
    (ChatMessageReq.mk "s1" "user" ("a" +:+ String NUL "b")) db_s1_fk
  = (DataError, db_s1_fk) /\
  http_status (fst (save_message (mkEnv "m1" (at_us 9))
    (ChatMessageReq.mk "s1" "user" ("a" +:+ String NUL "b")) db_s1_fk)) = 500.
Proof.
  split; [apply (bool_decide_unpack _); vm_compute; exact I|].
  split; [vm_compute; reflexivity|].
  split; [apply (bool_decide_unpack _); vm_compute; exact I|].
  split; [vm_compute; reflexivity|].
  split; [vm_compute; reflexivity|].
  split; [exists sample_session; vm_compute; reflexivity|].
  split; vm_compute; reflexivity.
Qed.

(** ** session-start *)



(** ** feedback-start *)

(** C4: for every request, feedback-start answers with exactly seven
    questions whose keys are, in order, believability, realism, design_opt,
    ease_use, trust, task_success, free_text; the first six are Likert
    questions with scale 1 to 5 and the last is a free-text question; the
    session identifier of the request is echoed unchanged; the answer does
    not depend on the database or on the clock and identifier draws (no
    session lookup), and the database is returned as it was. *)
Theorem feedback_start_spec (env : Env) (req : FeedbackStartReq.t) (d : DB) :
  app env (POST_feedback_start req) d
    = (Return (JSONBody (feedback_start req)), d) /\
  (forall env' d',
     fst (app env' (POST_feedback_start req) d')
     = fst (app env (POST_feedback_start req) d)) /\
  field "session_id" (feedback_start req)
    = Some (JStr (FeedbackStartReq.session_id req)) /\
  field "questions" (feedback_start req) = Some (JArr questions) /\
  length questions = 7%nat /\
  field "key" <$> questions = (fun k => Some (JStr k)) <$> question_keys /\
  Forall is_likert_1_5 (take 6 questions) /\
  Forall is_free_text (drop 6 questions).
Proof.
  split; [reflexivity|]. split; [reflexivity|].
  split; [reflexivity|]. split; [reflexivity|].
  split; [reflexivity|]. split; [reflexivity|].
  split; repeat constructor.
Qed.

(** ** Text lemmas *)

Lemma append_assoc (a b c : string) : (a +:+ b) +:+ c = a +:+ (b +:+ c).
Proof.
  induction a as [|x a IH]; [reflexivity|].
  change (String x ((a +:+ b) +:+ c) = String x (a +:+ (b +:+ c))).
  now f_equal.
Qed.

Lemma replace_length old new s :
  String.length (replace old new s) = String.length s.
Proof. induction s as [|c s IH]; simpl; [reflexivity|]. now rewrite IH. Qed.

Lemma replace_get old new s (i : nat) :
  String.get i (replace old new s)
  = (fun c : ascii => if Ascii.eqb c old then new else c) <$> String.get i s.
Proof.
  revert i; induction s as [|c s IH]; intros [|i]; simpl; try reflexivity.
  apply IH.
Qed.

Lemma replace_removes old new s :
  new <> old -> contains old (replace old new s) = false.
Proof.
  intros Hne. induction s as [|c s IH]; simpl; [reflexivity|].
  rewrite IH, orb_false_r.
  destruct (Ascii.eqb c old) eqn:E; [|exact E].
  now apply Ascii.eqb_neq.
Qed.

Lemma csv_lines_app (l1 l2 : list FeedbackResponse.t) :
  csv_lines (l1 ++ l2) = csv_lines l1 +:+ csv_lines l2.
Proof.
  induction l1 as [|r l1 IH]; [reflexivity|].
  change (csv_lines ((r :: l1) ++ l2))
    with (writerow (csv_row r) +:+ csv_lines (l1 ++ l2)).
  change (csv_lines (r :: l1)) with (writerow (csv_row r) +:+ csv_lines l1).
  now rewrite IH, append_assoc.
Qed.

Lemma csv_lines_ext (f : FeedbackResponse.t -> FeedbackResponse.t)
    (l : list FeedbackResponse.t) :
  (forall r, csv_row (f r) = csv_row r) ->
  csv_lines (f <$> l) = csv_lines l.
Proof.
  intros Hf. induction l as [|r l IH]; [reflexivity|].
  change (csv_lines (f <$> r :: l))
    with (writerow (csv_row (f r)) +:+ csv_lines (f <$> l)).
  change (csv_lines (r :: l)) with (writerow (csv_row r) +:+ csv_lines l).
  now rewrite IH, Hf.
Qed.

(** ** The formatters on sample values *)

Example isoformat_with_fraction :
  isoformat (at_us 7) = "2024-01-02T03:04:05.000007".
Proof. reflexivity. Qed.

Example isoformat_whole_second : isoformat (at_us 0) = "2024-01-02T03:04:05".
Proof. reflexivity. Qed.

Example writerow_quotes_when_needed :
  writerow [CStr "x"; CStr "a,b"; CStr EmptyString; CInt 5; CInt (-3)]
  = "x," +:+ String DQUOTE
      ("a,b" +:+ String DQUOTE (",,5,-3" +:+ String LF EmptyString)).
Proof. reflexivity. Qed.

Example query_feedback_sample :
  FeedbackResponse.id <$> query_feedback db_feedback = ["f2"; "f1"].
Proof. reflexivity. Qed.

(** ** Reading the CSV export back *)

Lemma writerow_several c1 c2 rest :
  writerow (c1 :: c2 :: rest)
  = join COMMA (write_field ∘ cell_text <$> c1 :: c2 :: rest)
    +:+ lineterminator.
Proof.
  unfold writerow.
  change (write_field ∘ cell_text <$> c1 :: c2 :: rest)
    with (write_field (cell_text c1)
          :: (write_field ∘ cell_text <$> c2 :: rest)).
  change (join COMMA (write_field (cell_text c1)
                      :: (write_field ∘ cell_text <$> c2 :: rest)))
    with (write_field (cell_text c1)
          +:+ String COMMA (join COMMA (write_field ∘ cell_text <$> c2 :: rest))).
  now destruct (write_field (cell_text c1)).
Qed.

Lemma append_empty_r (s : string) : s +:+ EmptyString = s.
Proof.
  induction s as [|c s IH]; [reflexivity|].
  change (String c (s +:+ EmptyString) = String c s). now f_equal.
Qed.

Lemma cons_char_str c p x : cons_char c (cons_str p x) = cons_str (String c p) x.
Proof. now destruct x as [[f fs] rs]. Qed.

Lemma cons_str_empty x : cons_str EmptyString x = x.
Proof. now destruct x as [[f fs] rs]. Qed.

Lemma special_false c :
  special c = false ->
  Ascii.eqb c COMMA = false /\ Ascii.eqb c DQUOTE = false /\
  Ascii.eqb c LF = false.
Proof.
  unfold special, lineterminator.
  change (contains c (String LF EmptyString)) with (Ascii.eqb LF c || false).
  rewrite orb_false_r, !orb_false_iff. intros [[H1 H2] H3].
  rewrite Ascii.eqb_sym in H3. auto.
Qed.

Lemma read_unquoted_char m c s :
  m <> Quoted -> special c = false ->
  read_fields m (String c s) = cons_char c (read_fields Unquoted s).
Proof.
  intros Hm Hc. apply special_false in Hc as (H1 & H2 & H3).
  destruct m; try congruence; simpl; now rewrite H1, H2, H3.
Qed.

Lemma read_unquoted f t :
  needs_quote f = false ->
  read_fields Unquoted (f +:+ t) = cons_str f (read_fields Unquoted t).
Proof.
  induction f as [|c f IH]; intros H; [now rewrite cons_str_empty|].
  simpl in H. apply orb_false_iff in H as [Hc Hf].
  change (read_fields Unquoted (String c (f +:+ t))
          = cons_str (String c f) (read_fields Unquoted t)).
  rewrite read_unquoted_char by (congruence || exact Hc).
  now rewrite (IH Hf), cons_char_str.
Qed.

Lemma read_delimiter m d r :
  m <> Quoted -> d = COMMA \/ d = LF ->
  read_fields m (String d r) = read_fields FieldStart (String d r).
Proof. intros Hm [-> | ->]; destruct m; congruence || reflexivity. Qed.

Lemma read_quoted f t :
  read_fields Quoted (double_quotes f +:+ String DQUOTE t)
  = cons_str f (read_fields QuoteSeen t).
Proof.
  induction f as [|c f IH].
  - rewrite cons_str_empty. reflexivity.
  - simpl double_quotes. destruct (Ascii.eqb c DQUOTE) eqn:E.
    + apply Ascii.eqb_eq in E. subst c.
      change (read_fields Quoted
                (String DQUOTE
                   (String DQUOTE (double_quotes f +:+ String DQUOTE t)))
              = cons_str (String DQUOTE f) (read_fields QuoteSeen t)).
      change (cons_char DQUOTE
                (read_fields Quoted (double_quotes f +:+ String DQUOTE t))
              = cons_str (String DQUOTE f) (read_fields QuoteSeen t)).
      now rewrite IH, cons_char_str.
    + change (read_fields Quoted
                (String c (double_quotes f +:+ String DQUOTE t))
              = cons_str (String c f) (read_fields QuoteSeen t)).
      simpl. rewrite E. now rewrite IH, cons_char_str.
Qed.

(** A written field is read back as the field. *)
Lemma read_written_field f d r :
  d = COMMA \/ d = LF ->
  read_fields FieldStart (write_field f +:+ String d r)
  = cons_str f (read_fields FieldStart (String d r)).
Proof.
  intros Hd. unfold write_field. destruct (needs_quote f) eqn:Hq.
  - change ((String DQUOTE (double_quotes f) +:+ String DQUOTE EmptyString)
            +:+ String d r)
      with (String DQUOTE
              ((double_quotes f +:+ String DQUOTE EmptyString)
               +:+ String d r)).
    rewrite append_assoc.
    change (String DQUOTE EmptyString +:+ String d r)
      with (String DQUOTE (String d r)).
    change (read_fields Quoted
              (double_quotes f +:+ String DQUOTE (String d r))
            = cons_str f (read_fields FieldStart (String d r))).
    rewrite read_quoted. f_equal. now apply read_delimiter.
  - destruct f as [|c f]; [now rewrite cons_str_empty|].
    simpl in Hq. apply orb_false_iff in Hq as [Hc Hf].
    change (read_fields FieldStart (String c (f +:+ String d r))
            = cons_str (String c f) (read_fields FieldStart (String d r))).
    rewrite read_unquoted_char by (congruence || exact Hc).
    rewrite (read_unquoted f _ Hf), cons_char_str. f_equal.
    now apply read_delimiter.
Qed.

Lemma read_line_end r :
  read_fields FieldStart (String LF r) = (EmptyString, [], read_csv r).
Proof. reflexivity. Qed.

Lemma read_comma r :
  read_fields FieldStart (String COMMA r)
  = let '(f, fs, rs) := read_fields FieldStart r in (EmptyString, f :: fs, rs).
Proof. reflexivity. Qed.

Lemma read_written_fields f fs r :
  read_fields FieldStart
    (join COMMA (write_field <$> f :: fs) +:+ String LF r)
  = (f, fs, read_csv r).
Proof.
  revert f. induction fs as [|g fs IH]; intros f.
  - change (read_fields FieldStart (write_field f +:+ String LF r)
            = (f, [], read_csv r)).
    rewrite read_written_field by now right.
    rewrite read_line_end. simpl. now rewrite append_empty_r.
  - change (read_fields FieldStart
              ((write_field f
                +:+ String COMMA (join COMMA (write_field <$> g :: fs)))
               +:+ String LF r)
            = (f, g :: fs, read_csv r)).
    rewrite append_assoc.
    change (String COMMA (join COMMA (write_field <$> g :: fs))
            +:+ String LF r)
      with (String COMMA
              (join COMMA (write_field <$> g :: fs) +:+ String LF r)).
    rewrite read_written_field by now left.
    rewrite read_comma, IH. simpl. now rewrite append_empty_r.
Qed.

Lemma read_csv_cons a c b :
  read_csv (a +:+ String c b)
  = let '(f, fs, rs) := read_fields FieldStart (a +:+ String c b) in
    (f :: fs) :: rs.
Proof. now destruct a. Qed.

(** A written row of two cells or more, followed by further text, is
    read back as the texts of its cells, followed by the records of the
    further text. *)
Lemma read_csv_writerow c1 c2 cells rest :
  read_csv (writerow (c1 :: c2 :: cells) +:+ rest)
  = (cell_text <$> c1 :: c2 :: cells) :: read_csv rest.
Proof.
  rewrite writerow_several, append_assoc.
  change (lineterminator +:+ rest) with (String LF rest).
  rewrite read_csv_cons, list_fmap_compose.
  change (cell_text <$> c1 :: c2 :: cells)
    with (cell_text c1 :: (cell_text <$> c2 :: cells)).
  now rewrite read_written_fields.
Qed.

Lemma flat_text_replace t : replace LF SPACE (or_empty t) = flat_text t.
Proof.
  destruct t as [s|]; [|reflexivity].
  assert (or_empty (Some s) = s) as -> by now destruct s.
  unfold flat_text. induction s as [|c s IH]; [reflexivity|].
  simpl. now rewrite IH.
Qed.

Lemma cell_texts_csv_row r : cell_text <$> csv_row r = csv_record r.
Proof.
  unfold csv_row, csv_record. csimpl. rewrite flat_text_replace.
  now destruct (FeedbackResponse.answer_numeric r).
Qed.

Lemma read_csv_lines rows :
  read_csv (csv_lines rows) = csv_record <$> rows.
Proof.
  induction rows as [|r rows IH]; [reflexivity|].
  change (csv_lines (r :: rows))
    with (writerow (csv_row r) +:+ csv_lines rows).
  unfold csv_row at 1. rewrite read_csv_writerow. fold (csv_row r).
  now rewrite cell_texts_csv_row, IH.
Qed.

Lemma json_shows_row r : json_shows r (json_row r).
Proof.
  unfold json_shows, json_row. simpl.
  destruct (FeedbackResponse.answer_numeric r),
    (FeedbackResponse.answer_text r); repeat split.
Qed.

(** Both exports show the rows of the ordered query, in its order. *)
Lemma exports_show_query env d : exports_show env d (query_feedback d).
Proof.
  split.
  - exists (writerow csv_header +:+ csv_lines (query_feedback d)).
    split; [reflexivity|].
    unfold csv_header. rewrite read_csv_writerow. f_equal.
    apply read_csv_lines.
  - exists (json_row <$> query_feedback d). split; [reflexivity|].
    apply Forall2_fmap_r, Forall_Forall2_diag, Forall_forall.
    intros r _. apply json_shows_row.
Qed.

Lemma exports_show_sorted env d :
  exists rows,
    Permutation rows (feedback_responses d) /\
    StronglySorted ts_le rows /\
    exports_show env d rows.
Proof.
  exists (query_feedback d).
  split; [apply order_by_ts_perm|].
  split; [apply order_by_ts_sorted|apply exports_show_query].
Qed.

Lemma flat_text_no_LF t : contains LF (flat_text t) = false.
Proof. rewrite <- flat_text_replace. now apply replace_removes. Qed.

Lemma flat_text_length s : String.length (flat_text (Some s)) = String.length s.
Proof.
  rewrite <- flat_text_replace.
  assert (or_empty (Some s) = s) as -> by now destruct s.
  apply replace_length.
Qed.

Lemma flat_text_get s (i : nat) :
  String.get i (flat_text (Some s))
  = (fun c : ascii => if Ascii.eqb c LF then SPACE else c) <$> String.get i s.
Proof.
  rewrite <- flat_text_replace.
  assert (or_empty (Some s) = s) as -> by now destruct s.
  apply replace_get.
Qed.

(** ** The two exports *)

(** C5: for every state of the feedback table, export-csv and export-json
    serialize the same rows in the same order: there is a rearrangement of
    the table in which timestamps never decrease such that the CSV response
    is the byte-order mark followed by text that reads back as the header
    record and then, row by row, the record of session_id, q_key,
    answer_numeric, answer_text and timestamp, and the JSON response is the
    array of one object per row with these five keys.  A null
    answer_numeric is the empty field in the CSV record and null in the
    JSON object; the answer_text field of the CSV record is empty for a
    null and otherwise the text with every line feed replaced by a space,
    all other characters kept (the JSON object keeps the text). *)
Theorem exports_same_rows_same_order (env : Env) (d : DB) :
  (exists rows,
     Permutation rows (feedback_responses d) /\
     StronglySorted ts_le rows /\
     exports_show env d rows)
  /\
  (forall r,
     FeedbackResponse.answer_numeric r = None ->
     csv_record r !! 2%nat = Some EmptyString /\
     forall j, json_shows r j -> field "answer_numeric" j = Some JNull)
  /\
  (forall r, exists txt,
     csv_record r !! 3%nat = Some txt /\
     contains LF txt = false /\
     match FeedbackResponse.answer_text r with
     | None => txt = EmptyString
     | Some t =>
         String.length txt = String.length t /\
         forall i : nat,
           String.get i txt
           = (fun c : ascii => if Ascii.eqb c LF then SPACE else c)
               <$> String.get i t
     end).
Proof.
  split; [apply exports_show_sorted|]. split.
  - intros r H. unfold csv_record. rewrite H. split; [reflexivity|].
    intros j (_ & _ & Hj & _). now rewrite H in Hj.
  - intros r. eexists. split; [reflexivity|].
    split; [apply flat_text_no_LF|].
    destruct (FeedbackResponse.answer_text r) as [t|]; [|reflexivity].
    split; [apply flat_text_length|]. intros i. apply flat_text_get.
Qed.

Lemma exports_same_rows_same_order_witness :
  csv_record (FeedbackResponse.mk "f1" "s1" "trust" None
                (Some ("line one" +:+ String LF "line two")) (at_us 7))
    !! 2%nat = Some EmptyString
  /\ exists rows,
       Permutation rows sample_feedback /\
       exports_show (mkEnv "u" (at_us 9)) db_feedback rows.
Proof.
  destruct (exports_same_rows_same_order (mkEnv "u" (at_us 9)) db_feedback)
    as ((rows & Hp & _ & Hs) & Hn & _).
  split.
  - apply (Hn (FeedbackResponse.mk "f1" "s1" "trust" None
                 (Some ("line one" +:+ String LF "line two")) (at_us 7))).
    reflexivity.
  - exists rows. split; assumption.
Defined.

(** ** Null and empty text answers *)

Lemma csv_row_empty_for_null r : csv_row (empty_for_null r) = csv_row r.
Proof.
  unfold empty_for_null.
  destruct (FeedbackResponse.answer_text r) eqn:E; [reflexivity|].
  unfold csv_row. simpl. now rewrite E.
Qed.

Lemma ts_empty_for_null r :
  FeedbackResponse.ts (empty_for_null r) = FeedbackResponse.ts r.
Proof.
  unfold empty_for_null. now destruct (FeedbackResponse.answer_text r).
Qed.

Lemma fmap_eq_elem {A B} (f g : A -> B) (l : list A) x :
  f <$> l = g <$> l -> x ∈ l -> f x = g x.
Proof.
  induction l as [|y l IH]; csimpl; intros E Hx.
  - now apply elem_of_nil in Hx.
  - injection E as E1 E2. apply elem_of_cons in Hx as [->|Hx]; auto.
Qed.

(** C9: the CSV export (the byte-order mark followed by text that reads
    back as the header record and one record per stored row, in timestamp
    order) shows a row whose answer_text is null with an empty answer_text
    field, exactly as the same row with the empty string as answer_text:
    replacing every null answer_text of the table by the empty string
    leaves the whole CSV response unchanged.  The JSON export (one object
    per stored row) tells them apart, giving null for the one and the empty
    string for the other, so the same replacement changes the JSON response
    as soon as some row has a null answer_text. *)
Theorem csv_conflates_null_and_empty_text (env : Env) (d : DB) :
  (exists rows,
     Permutation rows (feedback_responses d) /\
     StronglySorted ts_le rows /\
     exports_show env d rows)
  /\
  (forall r,
     FeedbackResponse.answer_text r = None ->
     csv_record r !! 3%nat = Some EmptyString /\
     csv_record (empty_for_null r) = csv_record r /\
     forall j j',
       json_shows r j -> json_shows (empty_for_null r) j' ->
       field "answer_text" j = Some JNull /\
       field "answer_text" j' = Some (JStr EmptyString) /\
       j <> j')
  /\
  export_feedback_csv env (map_feedback empty_for_null d)
    = export_feedback_csv env d
  /\
  ((exists r, r ∈ feedback_responses d /\
              FeedbackResponse.answer_text r = None) ->
   export_feedback_json (map_feedback empty_for_null d)
     <> export_feedback_json d).
Proof.
  assert (Hrow : forall r, FeedbackResponse.answer_text r = None ->
                           json_row (empty_for_null r) <> json_row r).
  { intros r H. unfold empty_for_null, json_row. rewrite H. simpl.
    discriminate. }
  split; [apply exports_show_sorted|]. split; [|split].
  - intros r H. split; [unfold csv_record; now rewrite H|].
    split; [unfold empty_for_null, csv_record; now rewrite H|].
    intros j j' (_ & _ & _ & Hj & _) (_ & _ & _ & Hj' & _).
    unfold empty_for_null in Hj'. rewrite H in Hj, Hj'. simpl in Hj'.
    repeat split; [exact Hj|exact Hj'|]. intros ->. congruence.
  - unfold export_feedback_csv, query_feedback, map_feedback. simpl.
    rewrite (order_by_ts_fmap _ _ ts_empty_for_null).
    now rewrite (csv_lines_ext _ _ csv_row_empty_for_null).
  - intros (r & Hr & Hnull) E.
    unfold export_feedback_json, query_feedback, map_feedback in E.
    simpl in E. rewrite (order_by_ts_fmap _ _ ts_empty_for_null) in E.
    injection E as E. rewrite <- list_fmap_compose in E.
    apply (Hrow r Hnull).
    apply (fmap_eq_elem _ _ _ r E).
    now rewrite order_by_ts_perm.
Qed.

Lemma csv_conflates_null_and_empty_text_witness :
  export_feedback_json (map_feedback empty_for_null db_feedback)
    <> export_feedback_json db_feedback.
Proof.
  apply (proj2 (proj2 (proj2 (csv_conflates_null_and_empty_text
                         (mkEnv "u" (at_us 9)) db_feedback)))).
  exists (FeedbackResponse.mk "f2" "s1" "realism" (Some 4) None (at_us 3)).
  split; [|reflexivity].
  unfold db_feedback, sample_feedback. simpl. do 2 constructor.
Defined.

(** ** feedback-answer *)

Lemma feedback_fits_true d x :
  feedback_fits d x = true <->
  stores_texts d
    (FeedbackResponse.id x :: FeedbackResponse.session_id x
       :: FeedbackResponse.q_key x
       :: option_list (FeedbackResponse.answer_text x)) /\
  stores_int d (FeedbackResponse.answer_numeric x).
Proof.
  rewrite <- forallb_text_fits, <- int_fits_true. unfold feedback_fits.
  destruct (FeedbackResponse.answer_text x); simpl;
    rewrite !andb_true_iff; tauto.
Qed.

Lemma add_feedback_accepted x d :
  feedback_fits d x = true ->
  FeedbackResponse.id x ∉ feedback_ids d ->
  fk_ok d (FeedbackResponse.session_id x) = true ->
  add_feedback x d =
    Committed (mkDB (enforce_fk d) (sessions d) (messages d)
                    (feedback_responses d ++ [x])).
Proof.
  intros Hv Hid Hfk. unfold add_feedback. rewrite Hv. simpl.
  rewrite bool_decide_eq_false_2 by exact Hid. now rewrite Hfk.
Qed.

Lemma add_feedback_cases x d :
  (feedback_fits d x = true /\ (FeedbackResponse.id x ∉ feedback_ids d) /\
   fk_ok d (FeedbackResponse.session_id x) = true /\
   add_feedback x d =
     Committed (mkDB (enforce_fk d) (sessions d) (messages d)
                     (feedback_responses d ++ [x])))
  \/
  ((feedback_fits d x = false \/ FeedbackResponse.id x ∈ feedback_ids d \/
    fk_ok d (FeedbackResponse.session_id x) = false) /\
   (add_feedback x d = Refused_value \/ add_feedback x d = Refused_key)).
Proof.
  unfold add_feedback.
  destruct (feedback_fits d x) eqn:Hv; simpl; [|right; auto].
  case_bool_decide as Hid; [right; auto|].
  destruct (fk_ok d (FeedbackResponse.session_id x)) eqn:Hfk;
    [left|right]; auto.
Qed.

(** Whatever the outcome, the rows already stored stay in place, in
    order, and at most the submitted row is appended. *)
Lemma add_feedback_appends x d d' :
  add_feedback x d = Committed d' ->
  feedback_responses d' = (feedback_responses d ++ [x])%list /\
  sessions d' = sessions d /\ messages d' = messages d /\
  enforce_fk d' = enforce_fk d.
Proof.
  destruct (add_feedback_cases x d) as [(_ & _ & _ & ->)|(_ & [-> | ->])];
    [|discriminate..].
  intros [= <-]. repeat split.
Qed.

Lemma feedback_accepted_iff d env req :
  feedback_accepted d env req <->
  feedback_fits d
    (FeedbackResponse.mk (uuid4 env) (FeedbackAnswerReq.session_id req)
       (FeedbackAnswerReq.q_key req) (FeedbackAnswerReq.answer_numeric req)
       (FeedbackAnswerReq.answer_text req) (utcnow env))
    = true /\
  (uuid4 env ∉ feedback_ids d) /\
  fk_ok d (FeedbackAnswerReq.session_id req) = true.
Proof.
  unfold feedback_accepted, reference_ok.
  rewrite feedback_fits_true, fk_ok_true. simpl. tauto.
Qed.


Lemma feedback_answer_accepted env req d :
  feedback_accepted d env req ->
  feedback_answer env req d =
    (Return ok_true,
     mkDB (enforce_fk d) (sessions d) (messages d)
       (feedback_responses d ++
        [FeedbackResponse.mk (uuid4 env) (FeedbackAnswerReq.session_id req)
           (FeedbackAnswerReq.q_key req)
           (FeedbackAnswerReq.answer_numeric req)
           (FeedbackAnswerReq.answer_text req) (utcnow env)])).
Proof.
  intros Hacc. apply feedback_accepted_iff in Hacc as (Hv & Hid & Hfk).
  unfold feedback_answer. now rewrite add_feedback_accepted.
Qed.

Lemma feedback_answer_refused env req d :
  ~ feedback_accepted d env req ->
  (feedback_answer env req d = (DataError, d) \/
   feedback_answer env req d = (IntegrityError, d)).
Proof.
  intros Hacc. unfold feedback_answer.
  destruct (add_feedback_cases
              (FeedbackResponse.mk (uuid4 env)
                 (FeedbackAnswerReq.session_id req)
                 (FeedbackAnswerReq.q_key req)
                 (FeedbackAnswerReq.answer_numeric req)
                 (FeedbackAnswerReq.answer_text req) (utcnow env)) d)
    as [(Hv & Hid & Hfk & _)|(_ & [E|E])].
  - exfalso. apply Hacc. apply feedback_accepted_iff. auto.
  - rewrite E. now left.
  - rewrite E. now right.
Qed.

(** A stored row is read back from the CSV export. *)
Lemma csv_body_shows env d r :
  r ∈ feedback_responses d ->
  exists text,
    body (export_feedback_csv env d) = BOM +:+ text /\
    csv_record r ∈ read_csv text.
Proof.
  intros Hr. destruct (exports_show_query env d) as [(text & E & R) _].
  exists text. split; [exact E|]. rewrite R. right.
  apply list_elem_of_fmap_2. now apply elem_of_query_feedback.
Qed.

(** A stored row has its object in the JSON export. *)
Lemma json_body_shows d r :
  r ∈ feedback_responses d ->
  exists items j,
    export_feedback_json d = JArr items /\ j ∈ items /\ json_shows r j.
Proof.
  intros Hr. exists (json_row <$> query_feedback d), (json_row r).
  split; [reflexivity|]. split; [|apply json_shows_row].
  apply list_elem_of_fmap_2. now apply elem_of_query_feedback.
Qed.

(** C6 (as the code has it): feedback-answer looks up neither the
    session nor the question catalog.  For every session_id and q_key it
    succeeds exactly when the engine accepts the insert: the row id drawn
    by [uuid4] is unused; the engine does not enforce the foreign key (the
    default SQLite file) or the session exists; the engine can bind the
    texts (Postgres refuses a text holding NUL); and answer_numeric is null
    or fits the [Integer] column (64 bits on SQLite, 32 bits on Postgres).
    It then appends one row holding the submitted session_id, q_key,
    answer_numeric and answer_text verbatim.  From then on the JSON export
    has an object with these four values verbatim (null kept as null), and
    the CSV export, read back, has the record of session_id and q_key
    verbatim, answer_numeric in decimal or the empty field when null, and
    answer_text with null as the empty field and every line feed replaced
    by a space.  When the engine does not accept the insert the client gets
    the server error (500) and nothing is stored. *)
Theorem feedback_answer_spec (env : Env) (req : FeedbackAnswerReq.t)
    (d : DB) :
  (feedback_accepted d env req ->
   exists d',
     feedback_answer env req d = (Return ok_true, d') /\
     feedback_responses d'
       = (feedback_responses d ++
          [FeedbackResponse.mk (uuid4 env)
             (FeedbackAnswerReq.session_id req) (FeedbackAnswerReq.q_key req)
             (FeedbackAnswerReq.answer_numeric req)
             (FeedbackAnswerReq.answer_text req) (utcnow env)])%list /\
     (exists items j,
        export_feedback_json d' = JArr items /\ j ∈ items /\
        field "session_id" j
          = Some (JStr (FeedbackAnswerReq.session_id req)) /\
        field "q_key" j = Some (JStr (FeedbackAnswerReq.q_key req)) /\
        field "answer_numeric" j
          = Some match FeedbackAnswerReq.answer_numeric req with
                 | Some z => JInt z
                 | None => JNull
                 end /\
        field "answer_text" j
          = Some match FeedbackAnswerReq.answer_text req with
                 | Some t => JStr t
                 | None => JNull
                 end /\
        field "ts" j = Some (JStr (isoformat (utcnow env)))) /\
     (forall env', exists text,
        body (export_feedback_csv env' d') = BOM +:+ text /\
        [ FeedbackAnswerReq.session_id req;
          FeedbackAnswerReq.q_key req;
          number_text (FeedbackAnswerReq.answer_numeric req);
          flat_text (FeedbackAnswerReq.answer_text req);
          isoformat (utcnow env) ] ∈ read_csv text))
  /\
  (~ feedback_accepted d env req ->
   http_status (fst (feedback_answer env req d)) = 500 /\
   snd (feedback_answer env req d) = d).
Proof.
  split.
  - intros Hacc. rewrite (feedback_answer_accepted env req d Hacc).
    eexists. split; [reflexivity|]. split; [reflexivity|].
    set (row := FeedbackResponse.mk _ _ _ _ _ _).
    set (d' := mkDB _ _ _ _).
    assert (Hin : row ∈ feedback_responses d').
    { simpl. apply elem_of_app. right. constructor. }
    split.
    + destruct (json_body_shows d' row Hin) as (items & j & E & Hj & Hs).
      exists items, j. split; [exact E|]. split; [exact Hj|exact Hs].
    + intros env'. exact (csv_body_shows env' d' row Hin).
  - intros Hacc.
    destruct (feedback_answer_refused env req d Hacc) as [-> | ->];
      split; reflexivity.
Qed.

Lemma feedback_answer_spec_witness :
  (exists d',
     feedback_answer (mkEnv "f9" (at_us 9))
       (FeedbackAnswerReq.mk "nosuch" "made_up_key" (Some 11) (Some "fine"))
       db_feedback
     = (Return ok_true, d') /\
     feedback_responses d'
       = (sample_feedback ++
          [FeedbackResponse.mk "f9" "nosuch" "made_up_key" (Some 11)
             (Some "fine") (at_us 9)])%list)
  /\
  snd (feedback_answer (mkEnv "f9" (at_us 9))
         (FeedbackAnswerReq.mk "nosuch" "made_up_key" (Some 11) (Some "fine"))
         db_s1_fk)
  = db_s1_fk.
Proof.
  split.
  - destruct (proj1 (feedback_answer_spec (mkEnv "f9" (at_us 9))
               (FeedbackAnswerReq.mk "nosuch" "made_up_key" (Some 11)
                  (Some "fine")) db_feedback))
      as (d' & H1 & H2 & _).
    + split; [|split; [|split]].
      * apply (bool_decide_unpack _); vm_compute; exact I.
      * left. reflexivity.
      * left. reflexivity.
      * vm_compute. split; [discriminate|reflexivity].
    + exists d'. split; [exact H1|exact H2].
  - apply (proj2 (feedback_answer_spec (mkEnv "f9" (at_us 9))
               (FeedbackAnswerReq.mk "nosuch" "made_up_key" (Some 11)
                  (Some "fine")) db_s1_fk)).
    intros (_ & [Hfk|[x Hx]] & _); [discriminate Hfk|].
    vm_compute in Hx. discriminate Hx.
Defined.

(** Inputs on which the submitted answer is not accepted and shown
    verbatim: on an engine that enforces the foreign key an answer for an
    absent session is refused; an answer_numeric of 2^31 is refused by
    Postgres, and one of 2^63 by SQLite, although the session exists; and a
    text answer with a line feed is stored as submitted but written to the
    CSV export with a space in its place. *)
Lemma feedback_answer_counterexample :
  (sessions db_s1_fk !! "nosuch" = None /\
   ("f9" ∉ feedback_ids db_s1_fk) /\
   feedback_answer (mkEnv "f9" (at_us 9))
     (FeedbackAnswerReq.mk "nosuch" "trust" (Some 3) None) db_s1_fk
   = (IntegrityError, db_s1_fk))
  /\
  (is_Some (sessions db_s1_fk !! "s1") /\
   feedback_answer (mkEnv "f9" (at_us 9))
     (FeedbackAnswerReq.mk "s1" "trust" (Some 2147483648) None) db_s1_fk
   = (DataError, db_s1_fk) /\
   is_Some (sessions db_s1 !! "s1") /\
   feedback_answer (mkEnv "f9" (at_us 9))
     (FeedbackAnswerReq.mk "s1" "trust" (Some 9223372036854775808) None)
     db_s1
   = (DataError, db_s1) /\
   http_status (@DataError json) = 500)
  /\
  (exists d',
     feedback_answer (mkEnv "f9" (at_us 9))
       (FeedbackAnswerReq.mk "s1" "made_up_key" None
          (Some ("a" +:+ String LF "b"))) db_s1
     = (Return ok_true, d') /\
     FeedbackResponse.answer_text <$> feedback_responses d'
       = [Some ("a" +:+ String LF "b")] /\
     csv_row <$> query_feedback d'
       = [[CStr "s1"; CStr "made_up_key"; CStr EmptyString; CStr "a b";
           CStr "2024-01-02T03:04:05.000009"]] /\
     body (export_feedback_csv (mkEnv "u" (at_us 9)) d')
       = BOM +:+ "session_id,q_key,answer_numeric,answer_text,ts"
         +:+ String LF
               ("s1,made_up_key,,a b,2024-01-02T03:04:05.000009"
                +:+ String LF EmptyString) /\
     "a b" <> "a" +:+ String LF "b").
Proof.
  split; [|split].
  - split; [vm_compute; reflexivity|].
    split; [apply (bool_decide_unpack _); vm_compute; exact I|].
    vm_compute. reflexivity.
  - split; [exists sample_session; vm_compute; reflexivity|].
    split; [vm_compute; reflexivity|].
    split; [exists sample_session; vm_compute; reflexivity|].
    split; vm_compute; reflexivity.
  - eexists. split; [reflexivity|].
    split; [vm_compute; reflexivity|].
    split; [vm_compute; reflexivity|].
    split; [vm_compute; reflexivity|].
    vm_compute. discriminate.
Qed.

(** ** Sequences of feedback-answer submissions *)

Section Submissions.

Implicit Types (s : submission) (subs : list submission) (d : DB).

Lemma submit_cases d s :
  (feedback_responses (submit d s)
     = (feedback_responses d ++ [row_of s])%list /\
   sessions (submit d s) = sessions d /\
   messages (submit d s) = messages d /\
   enforce_fk (submit d s) = enforce_fk d)
  \/ submit d s = d.
Proof.
  unfold submit, feedback_answer. fold (row_of s).
  destruct (add_feedback (row_of s) d) as [d'| |] eqn:E; [left|right..];
    simpl; [|reflexivity..].
  now apply add_feedback_appends.
Qed.

Lemma submit_accepted d s :
  accepted d s ->
  feedback_responses (submit d s)
    = (feedback_responses d ++ [row_of s])%list /\
  sessions (submit d s) = sessions d /\
  messages (submit d s) = messages d /\
  enforce_fk (submit d s) = enforce_fk d.
Proof.
  intros Hacc. unfold submit.
  rewrite (feedback_answer_accepted _ _ _ Hacc). repeat split.
Qed.

Lemma submit_all_keeps_rows subs : forall d,
  exists new,
    feedback_responses (submit_all subs d)
      = (feedback_responses d ++ new)%list /\
    sublist new (row_of <$> subs) /\
    sessions (submit_all subs d) = sessions d /\
    messages (submit_all subs d) = messages d.
Proof.
  induction subs as [|s subs IH]; intros d; simpl.
  - exists []. rewrite app_nil_r. repeat split. constructor.
  - destruct (IH (submit d s)) as (new & E & Hsub & Hs & Hm).
    destruct (submit_cases d s) as [(F & S1 & M1 & _)|Same].
    + exists (row_of s :: new). rewrite E, F, <- app_assoc. simpl.
      repeat split; try congruence. now constructor.
    + rewrite Same in *. exists new. repeat split; try assumption.
      now constructor.
Qed.

Lemma submit_all_accepted subs : forall d,
  NoDup (uuid4 ∘ fst <$> subs) ->
  Forall (accepted d) subs ->
  feedback_responses (submit_all subs d)
    = (feedback_responses d ++ (row_of <$> subs))%list.
Proof.
  induction subs as [|s subs IH]; intros d Hnd Hacc; csimpl.
  - now rewrite app_nil_r.
  - apply NoDup_cons in Hnd as [Hs Hnd].
    apply Forall_cons in Hacc as [Ha Hacc].
    destruct (submit_accepted d s Ha) as (F & S1 & _ & K1).
    rewrite IH; [now rewrite F, <- app_assoc | exact Hnd |].
    apply Forall_forall. intros s' Hs'.
    destruct (proj1 (Forall_forall _ _) Hacc s' Hs')
      as (Hid & Hfk & Htx & Hint).
    unfold accepted, feedback_accepted, reference_ok, stores_texts,
      stores_int.
    rewrite K1, S1. split; [|auto].
    unfold feedback_ids. rewrite F, fmap_app. simpl.
    intros Hin. apply elem_of_app in Hin as [Hin|Hin]; [now apply Hid|].
    apply list_elem_of_singleton in Hin.
    apply Hs.
    pose proof (list_elem_of_fmap_2 (uuid4 ∘ fst) subs s' Hs') as G.
    simpl in G. rewrite Hin in G. exact G.
Qed.

Lemma rows_of_pair_all sid qk subs :
  Forall (fun s => FeedbackAnswerReq.session_id (snd s) = sid /\
                   FeedbackAnswerReq.q_key (snd s) = qk) subs ->
  rows_of_pair sid qk (row_of <$> subs) = row_of <$> subs.
Proof.
  unfold rows_of_pair. induction 1 as [|s subs Hs _ IH]; csimpl;
    [reflexivity|].
  rewrite filter_cons_True by exact Hs. now rewrite IH.
Qed.

End Submissions.

(** C7 (as the code has it): along every sequence of feedback-answer
    submissions no stored row is modified or removed: the table after the
    sequence is the table before it followed by new rows, which are rows of
    the submissions in their order.  Every submission that the engine
    accepts (unused row id; the foreign key not enforced, or the session
    present; texts the engine can bind; answer_numeric null or within the
    [Integer] column, 64 bits on SQLite and 32 bits on Postgres) appends
    exactly its own row, so that n accepted submissions of the same
    (session_id, q_key) pair leave n more rows for that pair in the table:
    rows are appended, never replaced. *)
Theorem feedback_answers_append (subs : list submission) (d : DB) :
  (exists new,
     feedback_responses (submit_all subs d)
       = (feedback_responses d ++ new)%list /\
     sublist new (row_of <$> subs))
  /\
  (NoDup (uuid4 ∘ fst <$> subs) ->
   Forall (accepted d) subs ->
   feedback_responses (submit_all subs d)
     = (feedback_responses d ++ (row_of <$> subs))%list /\
   forall sid qk,
     Forall (fun s => FeedbackAnswerReq.session_id (snd s) = sid /\
                      FeedbackAnswerReq.q_key (snd s) = qk) subs ->
     length (rows_of_pair sid qk (feedback_responses (submit_all subs d)))
     = (length (rows_of_pair sid qk (feedback_responses d))
        + length subs)%nat).
Proof.
  split.
  - destruct (submit_all_keeps_rows subs d) as (new & E & Hsub & _).
    exists new. split; assumption.
  - intros Hnd Hacc.
    pose proof (submit_all_accepted subs d Hnd Hacc) as E.
    split; [exact E|].
    intros sid qk Hpair. rewrite E. unfold rows_of_pair at 1.
    rewrite filter_app, length_app. fold (rows_of_pair sid qk (row_of <$> subs)).
    fold (rows_of_pair sid qk (feedback_responses d)).
    now rewrite (rows_of_pair_all sid qk subs Hpair), length_fmap.
Qed.

Lemma feedback_answers_append_witness :
  length (rows_of_pair "s1" "realism"
            (feedback_responses (submit_all two_answers db_feedback)))
  = 3%nat.
Proof.
  destruct (proj2 (feedback_answers_append two_answers db_feedback))
    as [_ H].
  - apply (bool_decide_unpack _); vm_compute; exact I.
  - repeat apply Forall_cons_2; [| |apply Forall_nil_2];
      (split; [apply (bool_decide_unpack _); vm_compute; exact I|];
       split; [left; reflexivity|];
       split; [left; reflexivity|];
       vm_compute; split; [discriminate|reflexivity]).
  - rewrite (H "s1" "realism"); [reflexivity|].
    repeat constructor.
Defined.

(** Submissions that append nothing.  On an engine that enforces the
    foreign key, two submissions of one pair for an absent session leave no
    row.  On the default SQLite file, with the session present and the
    foreign key not enforced, a submission with answer_numeric 2^63 leaves
    no row either. *)
Lemma feedback_answers_counterexample :
  feedback_responses
    (submit_all
       [ (mkEnv "f3" (at_us 8),
          FeedbackAnswerReq.mk "nosuch" "realism" (Some 2) None);
         (mkEnv "f4" (at_us 9),
          FeedbackAnswerReq.mk "nosuch" "realism" (Some 5) None) ]
       db_s1_fk)
  = [] /\
  feedback_responses db_s1_fk = [] /\
  sessions db_s1_fk !! "nosuch" = None /\
  feedback_responses
    (submit_all
       [ (mkEnv "f3" (at_us 8),
          FeedbackAnswerReq.mk "s1" "realism"
            (Some 9223372036854775808) None) ]
       db_s1)
  = [] /\
  enforce_fk db_s1 = false /\
  is_Some (sessions db_s1 !! "s1") /\
  ("f3" ∉ feedback_ids db_s1).
Proof.
  split; [vm_compute; reflexivity|].
  split; [vm_compute; reflexivity|].
  split; [vm_compute; reflexivity|].
  split; [vm_compute; reflexivity|].
  split; [reflexivity|].
  split; [exists sample_session; vm_compute; reflexivity|].
  apply (bool_decide_unpack _); vm_compute; exact I.
Qed.

(** * Further properties of the application *)

(** ** The database URL *)

Lemma startswith_app (p r : string) : startswith p (p +:+ r) = true.
Proof.
  induction p as [|a p IH]; [reflexivity|].
  change (Ascii.eqb a a && startswith p (p +:+ r) = true).
  now rewrite Ascii.eqb_refl, IH.
Qed.

Lemma startswith_split (p s : string) :
  startswith p s = true -> s = p +:+ drop_str (String.length p) s.
Proof.
  revert s. induction p as [|a p IH]; intros s H; [reflexivity|].
  destruct s as [|b s]; [discriminate|].
  simpl in H. apply andb_true_iff in H as [Hab H].
  apply Ascii.eqb_eq in Hab. subst b.
  change (String a s = String a (p +:+ drop_str (String.length p) s)).
  f_equal. now apply IH.
Qed.

Lemma replace_first_prefix (old new s : string) :
  startswith old s = true ->
  replace_first old new s = new +:+ drop_str (String.length old) s.
Proof. intros H. destruct s; simpl; now rewrite H. Qed.

Lemma normalize_database_url_other (url : string) :
  startswith "postgres://" url = false ->
  startswith "postgresql://" url = false \/
    contains_str "+psycopg" url = true ->
  normalize_database_url url = url.
Proof.
  intros H1 H2. unfold normalize_database_url. rewrite H1.
  destruct H2 as [H2|H2]; rewrite H2; [reflexivity|].
  now rewrite andb_false_r.
Qed.

(** Only the scheme is rewritten: a [postgres://] address, and a
    [postgresql://] address that mentions [+psycopg] nowhere, get the scheme
    [postgresql+psycopg://] in front of the unchanged remainder (also when
    the old scheme text occurs again further on); every other address,
    among them a [postgresql://] address in which [+psycopg] occurs
    anywhere, is left as it is. *)
Theorem normalize_database_url_scheme_only :
  (forall rest,
     normalize_database_url ("postgres://" +:+ rest)
     = "postgresql+psycopg://" +:+ rest)
  /\
  (forall rest,
     contains_str "+psycopg" ("postgresql://" +:+ rest) = false ->
     normalize_database_url ("postgresql://" +:+ rest)
     = "postgresql+psycopg://" +:+ rest)
  /\
  (forall url,
     startswith "postgres://" url = false ->
     startswith "postgresql://" url = false \/
       contains_str "+psycopg" url = true ->
     normalize_database_url url = url).
Proof.
  split; [|split].
  - intros rest. reflexivity.
  - intros rest H. unfold normalize_database_url. rewrite H. reflexivity.
  - apply normalize_database_url_other.
Qed.

Lemma normalize_database_url_scheme_only_witness :
  normalize_database_url "postgresql://u:p@db.example/postgres://x"
    = "postgresql+psycopg://u:p@db.example/postgres://x"
  /\ normalize_database_url "sqlite:///./feedback.db"
     = "sqlite:///./feedback.db"
  /\ normalize_database_url "postgresql://u+psycopg@db.example/x"
     = "postgresql://u+psycopg@db.example/x".
Proof.
  destruct normalize_database_url_scheme_only as (_ & H2 & H3).
  split; [|split].
  - apply (H2 "u:p@db.example/postgres://x"). reflexivity.
  - apply H3; [reflexivity|]. left. reflexivity.
  - apply H3; [reflexivity|]. right. reflexivity.
Defined.

(** What the rewriting can return, in terms of an address split at its
    scheme. *)
Lemma normalize_database_url_cases (url : string) :
  (exists rest, normalize_database_url url = "postgresql+psycopg://" +:+ rest)
  \/ (normalize_database_url url = url /\
      startswith "postgres://" url = false /\
      (startswith "postgresql://" url = false \/
       contains_str "+psycopg" url = true)).
Proof.
  unfold normalize_database_url.
  destruct (startswith "postgres://" url) eqn:H1.
  - left. eexists. now apply replace_first_prefix.
  - destruct (startswith "postgresql://" url) eqn:H2; simpl.
    + destruct (contains_str "+psycopg" url) eqn:H3; simpl.
      * right. auto.
      * left. eexists. now apply replace_first_prefix.
    + right. auto.
Qed.

(** The rewriting is idempotent, and its result is never a
    [postgres://] address nor a [postgresql://] address without [+psycopg]:
    the engine is never handed an address that would pick another Postgres
    driver. *)
Theorem normalize_database_url_idempotent (url : string) :
  normalize_database_url (normalize_database_url url)
    = normalize_database_url url
  /\ startswith "postgres://" (normalize_database_url url) = false
  /\ startswith "postgresql://" (normalize_database_url url)
     && negb (contains_str "+psycopg" (normalize_database_url url)) = false.
Proof.
  destruct (normalize_database_url_cases url)
    as [[rest ->]|(-> & H1 & H2)].
  - repeat split; reflexivity.
  - split; [|split; [exact H1|]].
    + now apply normalize_database_url_other.
    + destruct H2 as [-> | ->]; [reflexivity|apply andb_false_r].
Qed.

(** The SQLite-only connection argument is decided alike before and
    after the rewriting, and an address that gets the argument is never
    rewritten. *)
Theorem connect_args_normalize (url : string) :
  connect_args (normalize_database_url url) = connect_args url /\
  (connect_args url <> [] -> normalize_database_url url = url).
Proof.
  unfold connect_args.
  assert (P : forall rest, startswith "sqlite" ("postgresql+psycopg://" +:+ rest) = false)
    by reflexivity.
  assert (Q : forall p rest, startswith "sqlite" (String "p" p +:+ rest) = false)
    by reflexivity.
  unfold normalize_database_url.
  destruct (startswith "postgres://" url) eqn:H1; cbv iota.
  - rewrite (replace_first_prefix _ _ _ H1), P.
    rewrite (startswith_split _ _ H1), Q. split; [reflexivity|].
    intros H. now contradict H.
  - destruct (startswith "postgresql://" url) eqn:H2;
      [|split; [reflexivity|auto]].
    destruct (contains_str "+psycopg" url); cbv beta iota delta [andb negb];
      [split; [reflexivity|auto]|].
    rewrite (replace_first_prefix _ _ _ H2), P.
    rewrite (startswith_split _ _ H2), Q. split; [reflexivity|].
    intros H. now contradict H.
Qed.

Lemma connect_args_normalize_witness :
  normalize_database_url (DATABASE_URL None) = DATABASE_URL None.
Proof.
  apply (proj2 (connect_args_normalize (DATABASE_URL None))).
  vm_compute. discriminate.
Defined.

(** ** What one request can do to the database *)

Lemma add_message_change x d d' :
  Message.role x ∈ valid_roles ->
  add_message x d = Committed d' -> change d d'.
Proof.
  intros Hrole.
  destruct (add_message_cases x d)
    as [(_ & Hid & Hfk & ->)|(_ & [-> | ->])]; [|discriminate..].
  intros [= <-]. now apply change_message_added.
Qed.

Lemma add_feedback_change x d d' :
  add_feedback x d = Committed d' -> change d d'.
Proof.
  destruct (add_feedback_cases x d)
    as [(_ & Hid & Hfk & ->)|(_ & [-> | ->])]; [|discriminate..].
  intros [= <-]. now apply change_feedback_added.
Qed.

Lemma start_session_change env req d :
  change d (snd (start_session env req d)).
Proof.
  unfold start_session, add_session.
  destruct (sessions d !! uuid4 env) eqn:E; simpl; [apply change_none|].
  now apply change_session_added.
Qed.

Lemma save_message_change env req d :
  change d (snd (save_message env req d)).
Proof.
  unfold save_message.
  destruct (bool_decide _) eqn:Hrole; simpl; [|apply change_none].
  apply bool_decide_eq_true in Hrole.
  destruct (add_message _ d) as [d'| |] eqn:E; simpl;
    [|apply change_none..].
  eapply add_message_change; [|exact E]. exact Hrole.
Qed.

Lemma end_session_change env req d :
  change d (snd (end_session env req d)).
Proof.
  unfold end_session, get_session.
  destruct (sessions d !! EndSessionReq.session_id req) eqn:E; simpl;
    [|apply change_none].
  now apply change_session_ended.
Qed.

Lemma feedback_answer_change env req d :
  change d (snd (feedback_answer env req d)).
Proof.
  unfold feedback_answer.
  destruct (add_feedback _ d) as [d'| |] eqn:E; simpl;
    [|apply change_none..].
  now apply (add_feedback_change _ _ _ E).
Qed.

Lemma snd_json_response {A} (f : A -> json) (x : outcome A * DB) :
  snd (json_response f x) = snd x.
Proof. now destruct x as [[a|c m| |] d]. Qed.

Lemma step_change (d : DB) (c : call) : change d (step d c).
Proof.
  destruct c as [env r]. unfold step. cbn [fst snd].
  destruct r as [|req|req|req|req|req| |]; simpl;
    rewrite ?snd_json_response; try apply change_none.
  - apply start_session_change.
  - apply save_message_change.
  - apply end_session_change.
  - apply feedback_answer_change.
Qed.

(** Whatever the request and whatever its outcome, the database after
    it is the database before it, or differs from it in exactly one of four
    ways: a session with null end timestamp and null notes is stored under
    an identifier that was unused; the end timestamp of a stored session is
    set; a message with one of the three roles, an unused id and an
    accepted session reference is appended; a feedback row with an unused
    id and an accepted session reference is appended.  No request removes a
    row, or rewrites a message or a feedback row. *)
Theorem app_change (env : Env) (r : Request) (d : DB) :
  change d (snd (app env r d)).
Proof.
  destruct r as [|req|req|req|req|req| |]; simpl;
    rewrite ?snd_json_response; try apply change_none.
  - apply start_session_change.
  - apply save_message_change.
  - apply end_session_change.
  - apply feedback_answer_change.
Qed.

(** A request that is not answered with success leaves the database
    exactly as it was, and so do the health check, feedback-start and the
    two exports, which are always answered with success. *)
Theorem app_failure_keeps_database (env : Env) (r : Request) (d : DB) :
  (http_status (fst (app env r d)) <> 200 -> snd (app env r d) = d) /\
  (match r with
   | GET_healthz | POST_feedback_start _
   | GET_feedback_export_csv | GET_feedback_export_json =>
       http_status (fst (app env r d)) = 200 /\ snd (app env r d) = d
   | _ => True
   end).
Proof.
  split; [|destruct r; simpl; auto].
  destruct r as [|req|req|req|req|req| |]; simpl; try reflexivity.
  - unfold start_session. destruct (add_session _ _ d); simpl;
      [congruence|reflexivity].
  - unfold save_message. destruct (negb _); simpl; [reflexivity|].
    destruct (add_message _ d); simpl; [congruence|reflexivity..].
  - unfold end_session. destruct (get_session _ d); simpl;
      [congruence|reflexivity].
  - unfold feedback_answer. destruct (add_feedback _ d); simpl;
      [congruence|reflexivity..].
Qed.

Lemma app_failure_keeps_database_witness :
  snd (app (mkEnv "m1" (at_us 9))
         (POST_chat_message (ChatMessageReq.mk "s1" "bot" "hi")) db_s1)
  = db_s1.
Proof.
  apply (proj1 (app_failure_keeps_database (mkEnv "m1" (at_us 9))
           (POST_chat_message (ChatMessageReq.mk "s1" "bot" "hi")) db_s1)).
  vm_compute. discriminate.
Defined.










(** ** What holds along every run *)

Section Runs.

Implicit Types (d : DB) (calls : list call).

Lemma run_cons c calls d : run (c :: calls) d = run calls (step d c).
Proof. reflexivity. Qed.

Lemma run_invariant (P : DB -> Prop) :
  (forall d d', change d d' -> P d -> P d') ->
  forall calls d, P d -> P (run calls d).
Proof.
  intros Hstep calls. induction calls as [|c calls IH]; intros d Hd.
  - exact Hd.
  - rewrite run_cons. apply IH. exact (Hstep _ _ (step_change d c) Hd).
Qed.

Lemma run_relation (R : DB -> DB -> Prop) :
  (forall d, R d d) ->
  (forall a b c, R a b -> R b c -> R a c) ->
  (forall d d', change d d' -> R d d') ->
  forall calls d, R d (run calls d).
Proof.
  intros Hrefl Htrans Hstep calls.
  induction calls as [|c calls IH]; intros d.
  - apply Hrefl.
  - rewrite run_cons.
    exact (Htrans _ _ _ (Hstep _ _ (step_change d c)) (IH _)).
Qed.

Lemma change_enforce_fk d d' : change d d' -> enforce_fk d' = enforce_fk d.
Proof. now destruct 1. Qed.

Lemma change_sessions_grow d d' id :
  change d d' -> is_Some (sessions d !! id) -> is_Some (sessions d' !! id).
Proof.
  destruct 1 as [|k x Hk _ _|k x now Hk| |]; simpl; auto;
    intros H; apply lookup_insert_is_Some;
    destruct (decide (k = id)); auto.
Qed.

End Runs.

(** Along every run of requests the roles of the stored messages stay
    among user, assistant and system: if they are so before the run, they
    are so after it; in particular they are in every database reached from
    the tables as created. *)
Theorem run_roles_valid (calls : list call) (d : DB) :
  (roles_valid d -> roles_valid (run calls d)) /\
  (forall fk, roles_valid (run calls (empty_db fk))).
Proof.
  assert (H : forall d, roles_valid d -> roles_valid (run calls d)).
  { apply run_invariant. clear. intros d d' Hc Hd.
    destruct Hc as [| | |m Hrole _ _|]; try exact Hd.
    unfold roles_valid in *. simpl. apply Forall_app. split; [exact Hd|].
    now constructor. }
  split; [apply H|]. intros fk. apply H. constructor.
Qed.

Lemma run_roles_valid_witness :
  roles_valid (run sample_calls db_s1).
Proof.
  apply (proj1 (run_roles_valid sample_calls db_s1)). constructor.
Defined.

(** Along every run the ids stay keys: if no two messages and no two
    feedback rows share an id before the run, none do after it, whatever
    the identifier draws are; in particular in every database reached from
    the tables as created. *)
Theorem run_ids_unique (calls : list call) (d : DB) :
  (ids_unique d -> ids_unique (run calls d)) /\
  (forall fk, ids_unique (run calls (empty_db fk))).
Proof.
  assert (H : forall d, ids_unique d -> ids_unique (run calls d)).
  { apply run_invariant. clear. intros d d' Hc [Hm Hf].
    destruct Hc as [| | |m _ Hid _|r Hid _]; try (split; assumption).
    - split; [|exact Hf]. unfold message_ids in *. simpl.
      rewrite fmap_app. apply NoDup_app. split; [exact Hm|].
      split; [|apply NoDup_singleton].
      intros x Hx Hx'. apply list_elem_of_singleton in Hx'. now subst.
    - split; [exact Hm|]. unfold feedback_ids in *. simpl.
      rewrite fmap_app. apply NoDup_app. split; [exact Hf|].
      split; [|apply NoDup_singleton].
      intros x Hx Hx'. apply list_elem_of_singleton in Hx'. now subst. }
  split; [apply H|]. intros fk. apply H. split; constructor.
Qed.

Lemma run_ids_unique_witness :
  ids_unique (run (sample_calls ++ sample_calls) db_s1).
Proof.
  apply (proj1 (run_ids_unique (sample_calls ++ sample_calls) db_s1)).
  split; constructor.
Defined.

(** On an engine that enforces the foreign keys, referential integrity
    is kept along every run: if every message and feedback row belongs to a
    stored session before the run, so it is after it (no request removes a
    session, and an insert for an absent session is refused); in particular
    in every database reached from the tables as created. *)
Theorem run_references_resolve (calls : list call) (d : DB) :
  (enforce_fk d = true -> references_resolve d ->
   references_resolve (run calls d)) /\
  references_resolve (run calls (empty_db true)).
Proof.
  assert (H : forall d, enforce_fk d = true /\ references_resolve d ->
                        enforce_fk (run calls d) = true /\
                        references_resolve (run calls d)).
  { apply (run_invariant
             (fun d => enforce_fk d = true /\ references_resolve d)).
    clear. intros d d' Hc [Hfk [Hm Hf]].
    split; [now rewrite (change_enforce_fk d d' Hc)|].
    assert (G : forall id, is_Some (sessions d !! id) ->
                           is_Some (sessions d' !! id))
      by (intros id; now apply change_sessions_grow).
    assert (Hm' : Forall (fun m => is_Some (sessions d' !! Message.session_id m))
                         (messages d))
      by (eapply Forall_impl; [exact Hm|]; intros m; apply G).
    assert (Hf' : Forall
                    (fun r => is_Some (sessions d'
                                         !! FeedbackResponse.session_id r))
                    (feedback_responses d))
      by (eapply Forall_impl; [exact Hf|]; intros r; apply G).
    destruct Hc as [| | |m _ _ Hok|r _ Hok]; try (split; assumption).
    - split; [|exact Hf']. simpl. apply Forall_app. split; [exact Hm'|].
      constructor; [|constructor].
      apply fk_ok_true in Hok as [Hok|Hok]; [congruence|exact Hok].
    - split; [exact Hm'|]. simpl. apply Forall_app. split; [exact Hf'|].
      constructor; [|constructor].
      apply fk_ok_true in Hok as [Hok|Hok]; [congruence|exact Hok]. }
  split.
  - intros Hfk Hd. now apply H.
  - apply H. repeat split; constructor.
Qed.

Lemma run_references_resolve_witness :
  references_resolve (run sample_calls db_s1_fk).
Proof.
  apply (proj1 (run_references_resolve sample_calls db_s1_fk)).
  - reflexivity.
  - split; constructor.
Defined.

(** No endpoint writes the notes column: if no session has notes before
    a run, none has after it; in particular none has in any database
    reached from the tables as created. *)
Theorem run_notes_unset (calls : list call) (d : DB) :
  (notes_unset d -> notes_unset (run calls d)) /\
  (forall fk, notes_unset (run calls (empty_db fk))).
Proof.
  assert (H : forall d, notes_unset d -> notes_unset (run calls d)).
  { apply run_invariant. clear. intros d d' Hc Hd.
    destruct Hc as [|k x Hk _ Hn|k x now Hk| |]; try exact Hd;
      intros id y; simpl; rewrite lookup_insert;
      case_decide; try apply Hd; intros [= <-]; [exact Hn|].
    simpl. exact (Hd _ _ Hk). }
  split; [apply H|]. intros fk. apply H. intros id x. simpl.
  rewrite lookup_empty. discriminate.
Qed.

Lemma run_notes_unset_witness :
  notes_unset (run sample_calls db_s1).
Proof.
  apply (proj1 (run_notes_unset sample_calls db_s1)).
  intros id x. unfold db_s1. simpl. rewrite lookup_singleton.
  case_decide; [|discriminate]. intros [= <-]. reflexivity.
Defined.

(** Sessions are never removed and, but for the end timestamp, never
    modified: after any run every session stored before it is still stored
    under its identifier with the same start timestamp, consent flag,
    research_version, user_agent and notes, and an end timestamp that was
    set is still set. *)
Theorem run_sessions_kept (calls : list call) (d : DB) :
  sessions_kept d (run calls d).
Proof.
  revert calls d. apply run_relation.
  - intros d id x H. exists x. repeat split; auto.
  - intros a b c Hab Hbc id x H.
    destruct (Hab id x H) as (y & Hy & E1 & E2 & E3 & E4 & E5 & E6).
    destruct (Hbc id y Hy) as (z & Hz & F1 & F2 & F3 & F4 & F5 & F6).
    exists z. repeat split; try congruence. auto.
  - intros d d' Hc id x H.
    destruct Hc as [|k y Hk _ _|k y now Hk| |];
      try (exists x; repeat split; auto; fail); simpl.
    + exists x. rewrite lookup_insert_ne by congruence. repeat split; auto.
    + destruct (decide (k = id)) as [->|Hne].
      * rewrite lookup_insert_eq. eexists. split; [reflexivity|].
        assert (y = x) as -> by congruence.
        repeat split. simpl. eauto.
      * exists x. rewrite lookup_insert_ne by exact Hne.
        repeat split; auto.
Qed.

(** Messages and feedback rows are never removed, modified or
    reordered: after any run the message table and the feedback table are
    the tables before the run followed by new rows, on the same engine. *)
Theorem run_tables_extended (calls : list call) (d : DB) :
  tables_extended d (run calls d).
Proof.
  revert calls d. apply run_relation.
  - intros d. split; [reflexivity|]. split; exists []; now rewrite app_nil_r.
  - intros a b c (E1 & [m1 M1] & [r1 R1]) (E2 & [m2 M2] & [r2 R2]).
    split; [congruence|]. split.
    + exists (m1 ++ m2)%list. now rewrite M2, M1, app_assoc.
    + exists (r1 ++ r2)%list. now rewrite R2, R1, app_assoc.
  - intros d d' Hc.
    destruct Hc as [| | |m _ _ _|r _ _]; (split; [reflexivity|]); simpl;
      split; first [now eexists | exists []; now rewrite app_nil_r].
Qed.

(** ** Sessions in use *)

Lemma start_session_returned env0 req0 d resp d1 :
  start_session env0 req0 d = (Return resp, d1) ->
  resp = StartSessionResp.mk (uuid4 env0) /\
  is_Some (sessions d1 !! uuid4 env0) /\
  enforce_fk d1 = enforce_fk d /\
  messages d1 = messages d /\
  feedback_responses d1 = feedback_responses d.
Proof.
  unfold start_session, add_session.
  destruct (sessions d !! uuid4 env0); [discriminate|].
  intros [= <- <-]. simpl. rewrite lookup_insert_eq. eauto.
Qed.

(** A session that session-start has just created can be used on every
    engine, enforcing foreign keys or not: once session-start has answered
    with the identifier, a chat-message for it with a valid role is stored
    whenever its drawn id is unused and the engine can bind its texts; a
    feedback answer for it is stored whenever its drawn id is unused, the
    engine can bind its texts and answer_numeric fits the [Integer] column;
    and session-end for it always succeeds. *)
Theorem started_session_is_usable (env0 : Env) (req0 : StartSessionReq.t)
    (d d1 : DB) (resp : StartSessionResp.t) :
  start_session env0 req0 d = (Return resp, d1) ->
  StartSessionResp.session_id resp = uuid4 env0
  /\
  (forall env role content,
     role ∈ valid_roles ->
     uuid4 env ∉ message_ids d ->
     stores_texts d [uuid4 env; uuid4 env0; content] ->
     fst (save_message env (ChatMessageReq.mk (uuid4 env0) role content) d1)
     = Return ok_true)
  /\
  (forall env q_key n t,
     uuid4 env ∉ feedback_ids d ->
     stores_texts d (uuid4 env :: uuid4 env0 :: q_key :: option_list t) ->
     stores_int d n ->
     fst (feedback_answer env
            (FeedbackAnswerReq.mk (uuid4 env0) q_key n t) d1)
     = Return ok_true)
  /\
  (forall env,
     fst (end_session env (EndSessionReq.mk (uuid4 env0)) d1)
     = Return ok_true).
Proof.
  intros Hstart.
  apply start_session_returned in Hstart as (-> & Hs & Hfk & Hm & Hf).
  split; [reflexivity|]. split; [|split].
  - intros env role content Hrole Hid Htx.
    rewrite save_message_accepted; [reflexivity|exact Hrole|].
    split; [unfold message_ids; now rewrite Hm|].
    split; [right; exact Hs|].
    unfold stores_texts. now rewrite Hfk.
  - intros env q_key n t Hid Htx Hint.
    rewrite feedback_answer_accepted; [reflexivity|].
    split; [unfold feedback_ids; now rewrite Hf|].
    split; [right; exact Hs|].
    unfold stores_texts, stores_int. rewrite Hfk. auto.
  - intros env. destruct Hs as [x Hx].
    now rewrite (end_session_present env
                   (EndSessionReq.mk (uuid4 env0)) d1 x Hx).
Qed.

Lemma started_session_is_usable_witness :
  fst (save_message (mkEnv "m1" (at_us 2))
         (ChatMessageReq.mk "s9" "system" "welcome")
         (snd (start_session (mkEnv "s9" (at_us 1))
                 (StartSessionReq.parse None None None) db_s1_fk)))
  = Return ok_true
  /\
  fst (feedback_answer (mkEnv "f1" (at_us 3))
         (FeedbackAnswerReq.mk "s9" "trust" (Some 2147483647) (Some "fine"))
         (snd (start_session (mkEnv "s9" (at_us 1))
                 (StartSessionReq.parse None None None) db_s1_fk)))
  = Return ok_true.
Proof.
  destruct (started_session_is_usable (mkEnv "s9" (at_us 1))
              (StartSessionReq.parse None None None) db_s1_fk
              (snd (start_session (mkEnv "s9" (at_us 1))
                      (StartSessionReq.parse None None None) db_s1_fk))
              (StartSessionResp.mk "s9"))
    as (_ & Hm & Hf & _).
  - vm_compute. reflexivity.
  - split.
    + apply Hm.
      * apply (bool_decide_unpack _); vm_compute; exact I.
      * apply (bool_decide_unpack _); vm_compute; exact I.
      * right. repeat constructor.
    + apply Hf.
      * apply (bool_decide_unpack _); vm_compute; exact I.
      * right. repeat constructor.
      * vm_compute. split; [discriminate|reflexivity].
Defined.

Lemma set_ended_at_twice v w x :
  Session.set_ended_at w (Session.set_ended_at v x) = Session.set_ended_at w x.
Proof. reflexivity. Qed.

(** Last writer wins: after two session-end calls on the same
    identifier the database is what the second call alone would have left;
    nothing of the first call remains.  In particular repeating a call with
    the same clock reading changes nothing. *)
Theorem end_session_last_writer_wins (env1 env2 : Env)
    (req : EndSessionReq.t) (d : DB) :
  end_session env2 req (snd (end_session env1 req d)) = end_session env2 req d.
Proof.
  unfold end_session at 2. unfold get_session.
  destruct (sessions d !! EndSessionReq.session_id req) as [x|] eqn:E;
    simpl; [|reflexivity].
  rewrite (end_session_present env2 req d x E).
  erewrite end_session_present by apply lookup_update_session_eq.
  rewrite set_ended_at_twice. unfold update_session. simpl.
  now rewrite insert_insert_eq.
Qed.

(** Session-end calls on different identifiers do not interfere: in
    either order they leave the same database. *)
Theorem end_session_commute (env1 env2 : Env) (req1 req2 : EndSessionReq.t)
    (d : DB) :
  EndSessionReq.session_id req1 <> EndSessionReq.session_id req2 ->
  snd (end_session env2 req2 (snd (end_session env1 req1 d)))
  = snd (end_session env1 req1 (snd (end_session env2 req2 d))).
Proof.
  intros Hne.
  destruct (sessions d !! EndSessionReq.session_id req1) as [x1|] eqn:E1;
    destruct (sessions d !! EndSessionReq.session_id req2) as [x2|] eqn:E2.
  - rewrite (end_session_present env1 req1 d x1 E1),
      (end_session_present env2 req2 d x2 E2). simpl.
    erewrite !end_session_present
      by (rewrite lookup_update_session_ne by congruence; eassumption).
    unfold update_session. simpl. f_equal. apply insert_insert_ne. congruence.
  - rewrite (end_session_present env1 req1 d x1 E1),
      (end_session_absent env2 req2 d E2). simpl.
    rewrite end_session_absent
      by (rewrite lookup_update_session_ne by congruence; exact E2).
    now rewrite (end_session_present env1 req1 d x1 E1).
  - rewrite (end_session_absent env1 req1 d E1),
      (end_session_present env2 req2 d x2 E2). simpl.
    rewrite (end_session_present env2 req2 d x2 E2). simpl.
    rewrite end_session_absent
      by (rewrite lookup_update_session_ne by congruence; exact E1).
    reflexivity.
  - rewrite (end_session_absent env1 req1 d E1),
      (end_session_absent env2 req2 d E2). simpl.
    now rewrite (end_session_absent env1 req1 d E1),
      (end_session_absent env2 req2 d E2).
Qed.

Lemma end_session_commute_witness :
  snd (end_session (mkEnv "v" (at_us 9)) (EndSessionReq.mk "nosuch")
         (snd (end_session (mkEnv "u" (at_us 8)) (EndSessionReq.mk "s1")
                 db_s1)))
  = snd (end_session (mkEnv "u" (at_us 8)) (EndSessionReq.mk "s1")
           (snd (end_session (mkEnv "v" (at_us 9)) (EndSessionReq.mk "nosuch")
                   db_s1))).
Proof.
  apply (end_session_commute (mkEnv "u" (at_us 8)) (mkEnv "v" (at_us 9))
           (EndSessionReq.mk "s1") (EndSessionReq.mk "nosuch") db_s1).
  discriminate.
Defined.

(** ** The exports and the other endpoints *)

Lemma app_keeps_feedback env r d :
  is_feedback_answer r = false ->
  feedback_responses (snd (app env r d)) = feedback_responses d.
Proof.
  destruct r as [|req|req|req|req|req| |]; simpl; try reflexivity;
    try discriminate; intros _.
  - unfold start_session, add_session.
    now destruct (sessions d !! uuid4 env).
  - unfold save_message, add_message. destruct (negb _); [reflexivity|].
    simpl. destruct (negb _); [reflexivity|].
    destruct (bool_decide _); [reflexivity|].
    now destruct (fk_ok _ _).
  - unfold end_session. now destruct (get_session _ d).
Qed.




(** ** The order of the exported rows *)

Lemma lex_compare_eq (a b : list N) : lex_compare a b = Eq -> a = b.
Proof.
  revert b; induction a as [|x a IH]; intros [|y b]; simpl;
    try discriminate; [reflexivity|].
  destruct (N.compare_spec x y) as [Hxy| |]; try discriminate.
  intros He. subst. f_equal. now apply IH.
Qed.

Lemma dt_le_antisym (a b : datetime) : dt_le a b -> dt_le b a -> a = b.
Proof.
  unfold dt_le, dt_leb, dt_compare.
  rewrite (lex_compare_antisym (dt_tuple a) (dt_tuple b)).
  destruct (lex_compare (dt_tuple a) (dt_tuple b)) eqn:E; simpl;
    try discriminate.
  intros _ _. apply lex_compare_eq in E.
  destruct a, b. unfold dt_tuple in E. simpl in E.
  injection E as -> -> -> -> -> -> ->. reflexivity.
Qed.

Lemma NoDup_fmap_eq {A B} (f : A -> B) (l : list A) x y :
  NoDup (f <$> l) -> x ∈ l -> y ∈ l -> f x = f y -> x = y.
Proof.
  induction l as [|a l IH]; csimpl; intros Hnd Hx Hy E.
  - now apply elem_of_nil in Hx.
  - apply NoDup_cons in Hnd as [Ha Hnd].
    apply elem_of_cons in Hx as [->|Hx]; apply elem_of_cons in Hy as [->|Hy];
      auto.
    + exfalso. apply Ha. rewrite E. now apply list_elem_of_fmap_2.
    + exfalso. apply Ha. rewrite <- E. now apply list_elem_of_fmap_2.
Qed.

Lemma dt_lt_le (a b : datetime) : dt_lt a b -> dt_le a b.
Proof.
  unfold dt_lt, dt_le. rewrite dt_ltb_leb, negb_true_iff.
  apply dt_leb_total.
Qed.

Lemma dt_lt_not_ge (a b : datetime) : dt_lt a b -> ~ dt_le b a.
Proof.
  unfold dt_lt, dt_le. rewrite dt_ltb_leb, negb_true_iff. congruence.
Qed.

Lemma sorted_lt_le l : StronglySorted ts_lt l -> StronglySorted ts_le l.
Proof.
  induction 1 as [|r l _ IH Hr]; constructor; [exact IH|].
  eapply Forall_impl; [exact Hr|]. intros x. apply dt_lt_le.
Qed.

Lemma sorted_lt_same_ts l x y :
  StronglySorted ts_lt l -> x ∈ l -> y ∈ l ->
  ts_le x y -> ts_le y x -> x = y.
Proof.
  induction 1 as [|r l _ IH Hr]; intros Hx Hy Hxy Hyx.
  - now apply elem_of_nil in Hx.
  - rewrite Forall_forall in Hr.
    apply elem_of_cons in Hx as [->|Hx]; apply elem_of_cons in Hy as [->|Hy];
      auto.
    + exfalso. exact (dt_lt_not_ge _ _ (Hr y Hy) Hyx).
    + exfalso. exact (dt_lt_not_ge _ _ (Hr x Hx) Hxy).
Qed.

(** A table whose timestamps strictly increase has one rearrangement in
    timestamp order only: itself. *)
Lemma sorted_lt_unique l rows :
  StronglySorted ts_lt l ->
  Permutation rows l -> StronglySorted ts_le rows -> rows = l.
Proof.
  intros Hl Hp Hs. apply (StronglySorted_unique_strong ts_le).
  - intros x y Hx Hy. rewrite Hp in Hx.
    now apply (sorted_lt_same_ts l).
  - exact Hs.
  - now apply sorted_lt_le.
  - exact Hp.
Qed.

(** When the stored feedback rows carry timestamps that strictly
    increase in insertion order, ordering by timestamp leaves no choice:
    every rearrangement of the table in which timestamps never decrease is
    the table itself.  So the query returns the rows in insertion order
    whatever the engine does with equal timestamps (there are none), and
    both exports show them in that order. *)
Theorem query_feedback_keeps_insertion_order (d : DB) :
  StronglySorted ts_lt (feedback_responses d) ->
  (forall rows,
     Permutation rows (feedback_responses d) ->
     StronglySorted ts_le rows ->
     rows = feedback_responses d) /\
  query_feedback d = feedback_responses d /\
  forall env, exports_show env d (feedback_responses d).
Proof.
  intros H.
  assert (U : forall rows,
             Permutation rows (feedback_responses d) ->
             StronglySorted ts_le rows -> rows = feedback_responses d)
    by (intros rows; now apply sorted_lt_unique).
  assert (Q : query_feedback d = feedback_responses d)
    by (apply U; [apply order_by_ts_perm|apply order_by_ts_sorted]).
  split; [exact U|]. split; [exact Q|].
  intros env. rewrite <- Q. apply exports_show_query.
Qed.

Lemma query_feedback_keeps_insertion_order_witness :
  query_feedback
    (mkDB false ∅ []
       [ FeedbackResponse.mk "f1" "s1" "trust" (Some 1) None (at_us 3);
         FeedbackResponse.mk "f2" "s1" "trust" (Some 2) None (at_us 4);
         FeedbackResponse.mk "f3" "s1" "trust" (Some 3) None (at_us 6) ])
  = [ FeedbackResponse.mk "f1" "s1" "trust" (Some 1) None (at_us 3);
      FeedbackResponse.mk "f2" "s1" "trust" (Some 2) None (at_us 4);
      FeedbackResponse.mk "f3" "s1" "trust" (Some 3) None (at_us 6) ].
Proof.
  apply (query_feedback_keeps_insertion_order
           (mkDB false ∅ []
              [ FeedbackResponse.mk "f1" "s1" "trust" (Some 1) None (at_us 3);
                FeedbackResponse.mk "f2" "s1" "trust" (Some 2) None (at_us 4);
                FeedbackResponse.mk "f3" "s1" "trust" (Some 3) None
                  (at_us 6) ])).
  repeat constructor.
Defined.

(** When the timestamps of the stored feedback rows are pairwise
    distinct, the exports do not depend on the order in which the rows were
    inserted: two databases holding the same rows in any two orders give the
    same JSON export and the same CSV export. *)
Theorem exports_independent_of_insertion_order (d1 d2 : DB) :
  Permutation (feedback_responses d1) (feedback_responses d2) ->
  NoDup (FeedbackResponse.ts <$> feedback_responses d1) ->
  query_feedback d1 = query_feedback d2 /\
  export_feedback_json d1 = export_feedback_json d2 /\
  forall env, export_feedback_csv env d1 = export_feedback_csv env d2.
Proof.
  intros Hp Hnd.
  assert (E : query_feedback d1 = query_feedback d2).
  { unfold query_feedback.
    apply (StronglySorted_unique_strong ts_le).
    - intros x1 x2 H1 H2 L1 L2.
      rewrite order_by_ts_perm in H1. rewrite order_by_ts_perm, <- Hp in H2.
      apply (NoDup_fmap_eq FeedbackResponse.ts _ _ _ Hnd H1 H2).
      now apply dt_le_antisym.
    - apply order_by_ts_sorted.
    - apply order_by_ts_sorted.
    - now rewrite !order_by_ts_perm. }
  split; [exact E|].
  unfold export_feedback_json, export_feedback_csv. now rewrite E.
Qed.

Lemma exports_independent_of_insertion_order_witness :
  export_feedback_json (mkDB false ∅ [] (reverse sample_feedback))
  = export_feedback_json db_feedback.
Proof.
  apply (exports_independent_of_insertion_order
           (mkDB false ∅ [] (reverse sample_feedback)) db_feedback).
  - simpl. apply (reverse_Permutation sample_feedback).
  - change (NoDup [at_us 3; at_us 7]).
    apply NoDup_cons. split; [|apply NoDup_singleton].
    intros H. apply list_elem_of_singleton in H. discriminate.
Defined.

(** ** Lines of the CSV export *)

Lemma contains_app c (a b : string) :
  contains c (a +:+ b) = contains c a || contains c b.
Proof.
  induction a as [|x a IH]; [reflexivity|].
  change (Ascii.eqb x c || contains c (a +:+ b)
          = Ascii.eqb x c || contains c a || contains c b).
  now rewrite IH, orb_assoc.
Qed.

Lemma double_quotes_contains c s :
  c <> DQUOTE -> contains c (double_quotes s) = contains c s.
Proof.
  intros Hc. induction s as [|x s IH]; [reflexivity|]. simpl.
  destruct (Ascii.eqb x DQUOTE) eqn:E; simpl; rewrite IH; [|reflexivity].
  apply Ascii.eqb_eq in E. subst x.
  destruct (Ascii.eqb DQUOTE c) eqn:E'; [|reflexivity].
  apply Ascii.eqb_eq in E'. congruence.
Qed.

Lemma write_field_contains_LF s :
  contains LF (write_field s) = contains LF s.
Proof.
  unfold write_field. destruct (needs_quote s); [|reflexivity].
  change (contains LF (String DQUOTE (double_quotes s +:+ String DQUOTE EmptyString))
          = contains LF s).
  simpl. rewrite contains_app, double_quotes_contains by discriminate.
  simpl. now rewrite orb_false_r.
Qed.

Lemma join_contains_LF fields :
  contains LF (join COMMA fields) = existsb (contains LF) fields.
Proof.
  induction fields as [|f [|g rest] IH]; [reflexivity| |].
  - simpl. now rewrite orb_false_r.
  - change (contains LF (f +:+ String COMMA (join COMMA (g :: rest)))
            = contains LF f || existsb (contains LF) (g :: rest)).
    rewrite contains_app.
    change (contains LF (String COMMA (join COMMA (g :: rest))))
      with (contains LF (join COMMA (g :: rest))).
    now rewrite IH.
Qed.

Lemma digit_not_LF n : Ascii.eqb (digit n) LF = false.
Proof.
  apply Ascii.eqb_neq. intros E.
  apply (f_equal N_of_ascii) in E. unfold digit in E.
  assert (n mod 10 < 10)%N by (apply N.mod_upper_bound; lia).
  rewrite N_ascii_embedding in E by lia.
  change (N_of_ascii LF) with 10%N in E.
  revert E. generalize (n mod 10)%N. intros m. lia.
Qed.

Lemma zpad_no_LF w n : contains LF (zpad w n) = false.
Proof.
  revert n. induction w as [|w IH]; intros n; [reflexivity|].
  simpl. rewrite contains_app, IH. simpl.
  now rewrite digit_not_LF.
Qed.

Lemma isoformat_no_LF d : contains LF (isoformat d) = false.
Proof.
  unfold isoformat. rewrite !contains_app, !zpad_no_LF.
  destruct (microsecond d =? 0)%N; [reflexivity|].
  now rewrite contains_app, zpad_no_LF.
Qed.

Lemma pretty_N_go_no_LF x s :
  contains LF s = false -> contains LF (pretty_N_go x s) = false.
Proof.
  revert s. induction (N.lt_wf_0 x) as [x _ IH]; intros s Hs.
  destruct (decide (x = 0)%N) as [->|Hx]; [exact Hs|].
  rewrite pretty_N_go_step by lia. apply IH.
  - apply N.div_lt; lia.
  - simpl. rewrite Hs, orb_false_r.
    unfold pretty_N_char. now repeat case_match.
Qed.

Lemma pretty_Z_no_LF (z : Z) : contains LF (pretty z) = false.
Proof.
  destruct z as [|p|p]; [reflexivity| |].
  - change (contains LF (pretty_N_go (Npos p) EmptyString) = false).
    now apply pretty_N_go_no_LF.
  - change (contains LF (String "-" (pretty_N_go (Npos p) EmptyString))
            = false).
    simpl. now apply pretty_N_go_no_LF.
Qed.

Lemma existsb_written (row : list cell) :
  existsb (contains LF) (write_field ∘ cell_text <$> row)
  = existsb (contains LF ∘ cell_text) row.
Proof.
  induction row as [|c row IH]; [reflexivity|].
  change (contains LF (write_field (cell_text c))
          || existsb (contains LF) (write_field ∘ cell_text <$> row)
          = contains LF (cell_text c)
            || existsb (contains LF ∘ cell_text) row).
  now rewrite write_field_contains_LF, IH.
Qed.

Lemma cell_text_no_LF (n : option Z) :
  contains LF
    (cell_text match n with None => CStr EmptyString | Some z => CInt z end)
  = false.
Proof. destruct n; [apply pretty_Z_no_LF|reflexivity]. Qed.

(** A stored answer takes one line of the CSV export unless its
    session_id or its q_key holds a line feed: the written row is a line
    followed by the line terminator, and that line holds a line feed
    exactly when session_id or q_key does.  The text answer, the number and
    the timestamp never break a line. *)
Theorem csv_row_is_one_line (r : FeedbackResponse.t) :
  exists line,
    writerow (csv_row r) = line +:+ lineterminator /\
    contains LF line
    = contains LF (FeedbackResponse.session_id r)
      || contains LF (FeedbackResponse.q_key r).
Proof.
  eexists. split; [apply writerow_several|].
  rewrite join_contains_LF, existsb_written.
  unfold csv_row. cbn [existsb compose].
  rewrite cell_text_no_LF. cbn [cell_text].
  rewrite isoformat_no_LF, replace_removes by discriminate.
  now rewrite !orb_false_r.
Qed.

(** ** Runs under a clock that advances *)

Lemma step_feedback (d : DB) (c : call) :
  feedback_responses (step d c) = feedback_responses d \/
  exists r,
    feedback_responses (step d c) = (feedback_responses d ++ [r])%list /\
    FeedbackResponse.ts r = utcnow (fst c).
Proof.
  destruct c as [env r].
  destruct (is_feedback_answer r) eqn:E.
  - destruct r; try discriminate. unfold step. simpl.
    unfold feedback_answer.
    destruct (add_feedback _ d) as [d'| |] eqn:A; simpl; [|now left..].
    right. eexists. split; [now apply (add_feedback_appends _ _ _ A)|].
    reflexivity.
  - left. now apply app_keeps_feedback.
Qed.

Lemma run_keeps_strict_order (calls : list call) : forall d,
  StronglySorted ts_lt (feedback_responses d) ->
  StronglySorted dt_lt (utcnow ∘ fst <$> calls) ->
  (forall r c, r ∈ feedback_responses d -> c ∈ calls ->
               dt_lt (FeedbackResponse.ts r) (utcnow (fst c))) ->
  StronglySorted ts_lt (feedback_responses (run calls d)).
Proof.
  induction calls as [|c calls IH]; intros d Hd Hc Hb; [exact Hd|].
  rewrite run_cons. csimpl in Hc. apply StronglySorted_inv in Hc as [Hc Hlt].
  assert (Hc0 : forall r, r ∈ feedback_responses d ->
                          dt_lt (FeedbackResponse.ts r) (utcnow (fst c)))
    by (intros r Hr; apply Hb; [exact Hr|constructor]).
  apply IH; [|exact Hc|].
  - destruct (step_feedback d c) as [->|(r & -> & Hr)]; [exact Hd|].
    apply StronglySorted_app_2; [|exact Hd|repeat constructor].
    intros x y Hx Hy. apply list_elem_of_singleton in Hy. subst y.
    unfold ts_lt. rewrite Hr. now apply Hc0.
  - intros r c' Hr Hc'.
    destruct (step_feedback d c) as [E|(r' & E & Hr')]; rewrite E in Hr.
    + apply Hb; [exact Hr|now constructor].
    + apply elem_of_app in Hr as [Hr|Hr].
      * apply Hb; [exact Hr|now constructor].
      * apply list_elem_of_singleton in Hr. subst r'. rewrite Hr'.
        rewrite Forall_forall in Hlt.
        now apply (Hlt _ (list_elem_of_fmap_2 (utcnow ∘ fst) _ _ Hc')).
Qed.

(** If the clock advances during a run (every reading is strictly later
    than the one before, and than every feedback timestamp already stored)
    and the stored feedback rows carry strictly increasing timestamps, then
    they still do after the run, so that ordering by timestamp leaves no
    choice: every rearrangement of the table in which timestamps never
    decrease is the table itself, and the exports list the answers in the
    order of their submission, on every engine. *)
Theorem run_monotone_clock_keeps_order (calls : list call) (d : DB) :
  StronglySorted ts_lt (feedback_responses d) ->
  StronglySorted dt_lt (utcnow ∘ fst <$> calls) ->
  (forall r c, r ∈ feedback_responses d -> c ∈ calls ->
               dt_lt (FeedbackResponse.ts r) (utcnow (fst c))) ->
  StronglySorted ts_lt (feedback_responses (run calls d)) /\
  (forall rows,
     Permutation rows (feedback_responses (run calls d)) ->
     StronglySorted ts_le rows ->
     rows = feedback_responses (run calls d)) /\
  query_feedback (run calls d) = feedback_responses (run calls d).
Proof.
  intros Hd Hc Hb.
  pose proof (run_keeps_strict_order calls d Hd Hc Hb) as S.
  split; [exact S|].
  assert (U : forall rows,
             Permutation rows (feedback_responses (run calls d)) ->
             StronglySorted ts_le rows ->
             rows = feedback_responses (run calls d))
    by (intros rows; now apply sorted_lt_unique).
  split; [exact U|].
  apply U; [apply order_by_ts_perm|apply order_by_ts_sorted].
Qed.

Lemma run_monotone_clock_keeps_order_witness :
  length (feedback_responses (run sample_answers (empty_db true))) = 3%nat
  /\
  query_feedback (run sample_answers (empty_db true))
  = feedback_responses (run sample_answers (empty_db true)).
Proof.
  split; [vm_compute; reflexivity|].
  apply (run_monotone_clock_keeps_order sample_answers (empty_db true)).
  - constructor.
  - repeat constructor.
  - intros r c Hr. now apply elem_of_nil in Hr.
Defined.

(** ** The allowed origins *)

Lemma split_cons sep c s :
  split sep (String c s)
  = if Ascii.eqb c sep then EmptyString :: split sep s
    else match split sep s with
         | piece :: rest => String c piece :: rest
         | [] => [String c EmptyString]
         end.
Proof. reflexivity. Qed.

Lemma length_split sep s : length (split sep s) = S (count_char sep s).
Proof.
  induction s as [|c s IH]; [reflexivity|].
  rewrite split_cons. simpl count_char.
  destruct (Ascii.eqb c sep); simpl; [now rewrite IH|].
  destruct (split sep s); simpl in *; congruence.
Qed.

Lemma split_piece sep p rest :
  contains sep p = false ->
  split sep (p +:+ String sep rest) = p :: split sep rest.
Proof.
  induction p as [|c p IH]; intros H.
  - change (split sep (String sep rest) = EmptyString :: split sep rest).
    now rewrite split_cons, Ascii.eqb_refl.
  - simpl in H. apply orb_false_iff in H as [Hc Hp].
    change (split sep (String c (p +:+ String sep rest))
            = String c p :: split sep rest).
    now rewrite split_cons, Hc, (IH Hp).
Qed.

Lemma split_last sep p : contains sep p = false -> split sep p = [p].
Proof.
  induction p as [|c p IH]; intros H; [reflexivity|].
  simpl in H. apply orb_false_iff in H as [Hc Hp].
  now rewrite split_cons, Hc, (IH Hp).
Qed.

Lemma split_join sep (pieces : list string) :
  pieces <> [] ->
  Forall (fun p => contains sep p = false) pieces ->
  split sep (join sep pieces) = pieces.
Proof.
  intros Hne H. induction H as [|p [|q rest] Hp _ IH]; [congruence| |].
  - now apply split_last.
  - change (split sep (p +:+ String sep (join sep (q :: rest)))
            = p :: q :: rest).
    rewrite (split_piece _ _ _ Hp). f_equal. now apply IH.
Qed.

(** The allowed origins are never an empty list: an unset or empty
    [CORS_ORIGINS] gives the single origin [*], and any other value gives
    one origin more than it has commas (empty entries are kept). *)
Theorem allow_origins_count (getenv : option string) :
  allow_origins getenv <> [] /\
  (getenv = None \/ getenv = Some EmptyString ->
   allow_origins getenv = ["*"]) /\
  (forall v, getenv = Some v -> v <> EmptyString ->
             length (allow_origins getenv) = S (count_char COMMA v)).
Proof.
  split; [|split].
  - unfold allow_origins. destruct (default "*" getenv) as [|c s];
      [discriminate|].
    intros H. apply (f_equal length) in H.
    rewrite length_fmap, length_split in H. discriminate.
  - intros [-> | ->]; reflexivity.
  - intros v -> Hv. destruct v as [|c s]; [congruence|].
    change (allow_origins (Some (String c s)))
      with (strip <$> split COMMA (String c s)).
    now rewrite length_fmap, length_split.
Qed.

Lemma allow_origins_count_witness :
  length (allow_origins (Some "https://a.example,,https://b.example")) = 3%nat.
Proof.
  apply (proj2 (proj2 (allow_origins_count
           (Some "https://a.example,,https://b.example")))
           "https://a.example,,https://b.example");
    [reflexivity|discriminate].
Defined.

(** A value of [CORS_ORIGINS] written as entries separated by commas
    is read back as these entries, in order, each with the white space
    around it removed. *)
Theorem allow_origins_of_join (entries : list string) :
  Forall (fun p => contains COMMA p = false) entries ->
  join COMMA entries <> EmptyString ->
  allow_origins (Some (join COMMA entries)) = strip <$> entries.
Proof.
  intros Hc Hne.
  assert (E : split COMMA (join COMMA entries) = entries).
  { apply split_join; [|exact Hc]. intros ->. now apply Hne. }
  destruct (join COMMA entries) as [|c s]; [congruence|].
  change (allow_origins (Some (String c s)))
    with (strip <$> split COMMA (String c s)).
  now rewrite E.
Qed.

Lemma allow_origins_of_join_witness :
  allow_origins (Some "https://a.example, https://b.example ")
  = ["https://a.example"; "https://b.example"].
Proof.
  apply (allow_origins_of_join ["https://a.example"; " https://b.example "]).
  - repeat constructor.
  - discriminate.
Defined.
